(** * portmaster: resolved-domain history (package resolver) and
      blocklist membership lookups (package filterlists)

    A shallow embedding of the Go code of the two packages and the
    properties their specification states about them.

    Conventions.
    - A Go [string] is a byte sequence: [String.string] (a list of 8-bit
      [ascii]).
    - A Go [int64] is a [Z]; arithmetic that can leave the 64-bit range is
      wrapped with [Int64.wrap].
    - A Go slice is a [list]; the nil slice and the empty slice are both [[]].
    - A Go [error] is [option error] ([None] is [nil]).
    - Mutexes are not modelled: every function is run on its own, which is
      what holding the lock for the whole critical section gives. Where a
      function gives the lock up between two critical sections (ServeBundle
      between reading and writing apps), a second definition takes the state
      at each section apart. *)

From Stdlib Require Import ZArith List String Ascii Bool Arith Lia.
Import ListNotations.

Open Scope string_scope.
Open Scope list_scope.

(** ** Go runtime: int64 and errors *)

Module Int64.

Definition min_int : Z := - 2 ^ 63.
Definition max_int : Z := 2 ^ 63 - 1.

Definition in_range (z : Z) : Prop := (min_int <= z <= max_int)%Z.

(** Two's complement wrap-around of a mathematical integer. *)
Definition wrap (z : Z) : Z := ((z + 2 ^ 63) mod 2 ^ 64 - 2 ^ 63)%Z.

Definition add (a b : Z) : Z := wrap (a + b).

End Int64.

(** Go [error] values. [database.ErrNotFound] is a sentinel compared with
    [==]; every other error is identified by its message. *)
Inductive error : Type :=
| ErrNotFound : error
| ErrorString : string -> error.

Definition error_eqb (a b : error) : bool :=
  match a, b with
  | ErrNotFound, ErrNotFound => true
  | ErrorString x, ErrorString y => String.eqb x y
  | _, _ => false
  end.

(** ** Package resolver: IPInfo *)

Module Resolver.

(** IPInfoProfileScopeGlobal is the profile scope used for unscoped
    IPInfo entries. *)
Definition IPInfoProfileScopeGlobal : string := "global".

Record ResolvedDomain : Type := mkResolvedDomain {
  Domain : string;
  CNAMEs : list string;
  Expires : Z   (* int64 *)
}.

(** Modelled from the spec: the metadata block of a store record
    (portbase [record.Meta]); the spec's section 6 gives it creation and
    expiry timestamps and [SetAbsoluteExpiry(timestamp)]. *)
Record Meta : Type := mkMeta {
  Created : Z;
  Modified : Z;
  MetaExpires : Z;
  Deleted : Z
}.

(** Modelled from the spec: the embedded [record.Base]: the store key
    (unset on a fresh record) and the metadata block (nil on a fresh
    record). *)
Record Base : Type := mkBase {
  dbKey : option string;
  meta : option Meta
}.

Record IPInfo : Type := mkIPInfo {
  base : Base;
  IP : string;
  ProfileID : string;
  ResolvedDomains : list ResolvedDomain
}.

(** The Go literal [&IPInfo{IP: ip, ProfileID: profileID}]. *)
Definition newIPInfo (ip profileID : string) : IPInfo :=
  {| base := {| dbKey := None; meta := None |};
     IP := ip; ProfileID := profileID; ResolvedDomains := [] |}.

Definition setResolvedDomains (info : IPInfo) (rds : list ResolvedDomain) : IPInfo :=
  {| base := base info; IP := IP info; ProfileID := ProfileID info;
     ResolvedDomains := rds |}.

(** The [for idx, d := range info.ResolvedDomains] loop of AddDomain up to
    its [break]: the index of the first entry for [domain]. *)
Fixpoint findDomain (domain : string) (rds : list ResolvedDomain) : option nat :=
  match rds with
  | [] => None
  | d :: rest =>
      if String.eqb (Domain d) domain then Some 0%nat
      else option_map S (findDomain domain rest)
  end.

(** AddDomain adds a new resolved domain to IPInfo. *)
Definition AddDomain (info : IPInfo) (resolved : ResolvedDomain) : IPInfo :=
  let rds := ResolvedDomains info in
  (* Delete old for the same domain. *)
  let rds :=
    match findDomain (Domain resolved) rds with
    | Some idx => firstn idx rds ++ skipn (S idx) rds
    | None => rds
    end in
  (* Add new entry to the end. *)
  setResolvedDomains info (rds ++ [resolved]).

(** MostRecentDomain returns the most recent domain ([None] is nil). *)
Definition MostRecentDomain (info : IPInfo) : option ResolvedDomain :=
  if Nat.eqb (List.length (ResolvedDomains info)) 0 then None
  else nth_error (ResolvedDomains info) (List.length (ResolvedDomains info) - 1).

Definition makeIPInfoKey (profileID ip : string) : string :=
  ("cache:intel/ipInfo/" ++ profileID ++ "/" ++ ip)%string.

(** Modelled from the spec: [record.Base.KeyIsSet], whether the store key
    has been assigned. *)
Definition KeyIsSet (b : Base) : bool :=
  match dbKey b with Some _ => true | None => false end.

(** Modelled from the spec: [record.Base.SetKey]; the key is assigned once,
    a later SetKey is ignored. *)
Definition SetKey (b : Base) (key : string) : Base :=
  if KeyIsSet b then b else {| dbKey := Some key; meta := meta b |}.

(** Modelled from the spec: [record.Base.UpdateMeta]; creates the metadata
    block if it is missing and stamps it with the current time [now]. *)
Definition UpdateMeta (now : Z) (b : Base) : Base :=
  let m := match meta b with
           | Some m => m
           | None => {| Created := 0; Modified := 0; MetaExpires := 0; Deleted := 0 |}
           end in
  {| dbKey := dbKey b;
     meta := Some {| Created := if (Created m =? 0)%Z then now else Created m;
                     Modified := now;
                     MetaExpires := MetaExpires m;
                     Deleted := Deleted m |} |}.

(** Modelled from the spec: [Meta.SetAbsoluteExpiry(seconds)]; the
    timestamp is stored as it is. *)
Definition SetAbsoluteExpiry (seconds : Z) (m : Meta) : Meta :=
  {| Created := Created m; Modified := Modified m;
     MetaExpires := seconds; Deleted := 0 |}.

(** [info.Meta().f()] for a method [f] that mutates the metadata block. *)
Definition onMeta (f : Meta -> Meta) (b : Base) : Base :=
  {| dbKey := dbKey b; meta := option_map f (meta b) |}.

Definition setBase (info : IPInfo) (b : Base) : IPInfo :=
  {| base := b; IP := IP info; ProfileID := ProfileID info;
     ResolvedDomains := ResolvedDomains info |}.

Definition setProfileID (info : IPInfo) (profileID : string) : IPInfo :=
  {| base := base info; IP := IP info; ProfileID := profileID;
     ResolvedDomains := ResolvedDomains info |}.

(** The absolute expiry a record carries ([None]: no metadata block yet). *)
Definition absoluteExpiry (info : IPInfo) : option Z :=
  option_map MetaExpires (meta (base info)).

(** The body of the loop of Save over the history:
    [if rd.Expires > expires { expires = rd.Expires }]. *)
Definition raise (expires : Z) (rd : ResolvedDomain) : Z :=
  if (Expires rd >? expires)%Z then Expires rd else expires.

Section Store.

(** The record store behind [ipInfoDatabase]: its state and its [Put]. *)
Variable DB : Type.
Variable Put : IPInfo -> DB -> DB * option error.

(** Save saves the IPInfo record to the database. [now] is the clock
    read by UpdateMeta. Returns the record as Save leaves it, the store
    and the error of Put. *)
Definition Save (now : Z) (info : IPInfo) (db : DB)
  : IPInfo * (DB * option error) :=
  (* Set database key if not yet set already. *)
  let info :=
    if negb (KeyIsSet (base info)) then
      (* Default to global scope if scope is unset. *)
      let info :=
        if String.eqb (ProfileID info) ""
        then setProfileID info IPInfoProfileScopeGlobal
        else info in
      setBase info (SetKey (base info) (makeIPInfoKey (ProfileID info) (IP info)))
    else info in
  (* Calculate and set cache expiry. *)
  let expires := 86400%Z in (* Minimum TTL of one day. *)
  let expires := fold_left raise (ResolvedDomains info) expires in
  let info := setBase info (UpdateMeta now (base info)) in
  let expires := Int64.add expires 3600 in (* Add one hour to expiry as a buffer. *)
  let info := setBase info (onMeta (SetAbsoluteExpiry expires) (base info)) in
  (info, Put info db).

End Store.

(** A record's lifetime after its creation: rounds of AddDomain calls,
    each followed by a Save at the given time. *)
Fixpoint lifetime (DB : Type) (Put : IPInfo -> DB -> DB * option error)
    (rounds : list (list ResolvedDomain * Z)) (info : IPInfo) (db : DB)
  : IPInfo * DB :=
  match rounds with
  | [] => (info, db)
  | (calls, now) :: rest =>
      let '(info', (db', _)) :=
        Save DB Put now (fold_left AddDomain calls info) db in
      lifetime DB Put rest info' db'
  end.

(** An in-memory stand-in for the record store, for running Save on
    concrete records: Put files the record under its key and succeeds. *)
Definition MemDB : Type := list (string * IPInfo).

Definition memPut (info : IPInfo) (db : MemDB) : MemDB * option error :=
  match dbKey (base info) with
  | Some key => ((key, info) :: db, None)
  | None => (db, Some (ErrorString "key not set"))
  end.

(** *** Specification-side definitions for the history *)

Definition otherDomain (d : string) (r : ResolvedDomain) : bool :=
  negb (String.eqb (Domain r) d).

(** The history the spec describes for a sequence of calls: a call is kept
    exactly when no later call names the same domain, in call order. *)
Fixpoint lastSeen (calls : list ResolvedDomain) : list ResolvedDomain :=
  match calls with
  | [] => []
  | c :: rest =>
      if existsb (fun r => String.eqb (Domain r) (Domain c)) rest
      then lastSeen rest
      else c :: lastSeen rest
  end.

Fixpoint lastCall (calls : list ResolvedDomain) : option ResolvedDomain :=
  match calls with
  | [] => None
  | [c] => Some c
  | _ :: rest => lastCall rest
  end.

(** The history after a sequence of AddDomain calls on [info]. *)
Definition addAll (info : IPInfo) (calls : list ResolvedDomain) : IPInfo :=
  fold_left AddDomain calls info.

End Resolver.

(** ** Go standard library: strings and net.IP *)

Module GoStrings.

(** [utf8.RuneSelf]: bytes below it are single-byte runes. *)
Definition RuneSelf : N := 128.

Fixpoint isASCII (s : string) : bool :=
  match s with
  | EmptyString => true
  | String c rest => (N_of_ascii c <? RuneSelf)%N && isASCII rest
  end.

(** ['A' <= c && c <= 'Z'] then [c += 'a' - 'A']. *)
Definition lowerByte (c : ascii) : ascii :=
  let n := N_of_ascii c in
  if (65 <=? n)%N && (n <=? 90)%N then ascii_of_N (n + 32) else c.

Fixpoint mapBytes (f : ascii -> ascii) (s : string) : string :=
  match s with
  | EmptyString => EmptyString
  | String c rest => String (f c) (mapBytes f rest)
  end.

Section ToLower.

(** [strings.Map(unicode.ToLower, s)], which strings.ToLower falls back
    to when [s] has a byte outside ASCII. It depends on the Unicode case
    tables and is left open. *)
Variable unicodeLower : string -> string.

(** [strings.ToLower]: ASCII-only strings are lower-cased bytewise (the
    library returns [s] itself when it has no upper-case byte, which is
    the same string); any other string goes through the Unicode
    mapping. *)
Definition ToLower (s : string) : string :=
  if isASCII s then mapBytes lowerByte s else unicodeLower s.

End ToLower.

(** [s[i]] with Go's bounds check: [None] is the run-time panic
    "index out of range". *)
Definition byteAt (s : string) (i : Z) : option ascii :=
  if (i <? 0)%Z || (Z.of_nat (String.length s) <=? i)%Z then None
  else String.get (Z.to_nat i) s.

End GoStrings.

Module GoNet.

(** [net.IP] is a byte slice. *)
Definition IP : Type := list Byte.byte.

Definition IPv4len : nat := 4.
Definition IPv6len : nat := 16.

Definition isZeros (p : list Byte.byte) : bool :=
  forallb (fun b => Byte.eqb b Byte.x00) p.

Definition v4InV6Prefix : list Byte.byte :=
  repeat Byte.x00 10 ++ [Byte.xff; Byte.xff].

(** [ip.To4()]; [None] is the nil IP. *)
Definition To4 (ip : IP) : option IP :=
  if Nat.eqb (List.length ip) IPv4len then Some ip
  else if Nat.eqb (List.length ip) IPv6len
          && isZeros (firstn 10 ip)
          && Byte.eqb (nth 10 ip Byte.x00) Byte.xff
          && Byte.eqb (nth 11 ip Byte.x00) Byte.xff
       then Some (firstn 4 (skipn 12 ip))
       else None.

(** [ip.To16()]; [None] is the nil IP. *)
Definition To16 (ip : IP) : option IP :=
  if Nat.eqb (List.length ip) IPv4len then Some (v4InV6Prefix ++ ip)
  else if Nat.eqb (List.length ip) IPv6len then Some ip
  else None.

End GoNet.

(** ** Package filterlists: the lookups *)

Module FilterLists.

Import GoStrings GoNet.

(** The record stored per entity: the lists that contain it. *)
Record entityRecord : Type := mkEntityRecord { Sources : list string }.

Inductive logLevel : Type := Warning | Debug | Error.

(** What a lookup does to the outside world, in order. *)
Inductive event : Type :=
| EvLog (level : logLevel) (key : string)
| EvRLock
| EvRUnlock
| EvTest (entity value : string)     (* defaultFilter.test *)
| EvGet (key : string).              (* a Record Store query *)

(** The package state a lookup reads (loaded flag, pre-filter, record
    store) and the trace of what has been done so far. *)
Record World : Type := mkWorld {
  loaded : bool;
  defaultFilter : string -> string -> bool;
  entityStore : string -> entityRecord + error;
  trace : list event
}.

Definition emit (e : event) (w : World) : World :=
  {| loaded := loaded w; defaultFilter := defaultFilter w;
     entityStore := entityStore w; trace := trace w ++ [e] |}.

Definition emitAll (es : list event) (w : World) : World :=
  fold_left (fun w e => emit e w) es w.

(** A Go call either returns or panics. *)
Inductive Res (A : Type) : Type :=
| Ret (a : A)
| Panic (msg : string).
Arguments Ret {A} a.
Arguments Panic {A} msg.

Definition M (A : Type) : Type := World -> Res A * World.

Definition ret {A : Type} (a : A) : M A := fun w => (Ret a, w).

Definition bind {A B : Type} (m : M A) (k : A -> M B) : M B :=
  fun w =>
    match m w with
    | (Ret a, w') => k a w'
    | (Panic msg, w') => (Panic msg, w')
    end.

Definition panic {A : Type} (msg : string) : M A := fun w => (Panic msg, w).

(** [defer cleanup] followed by [body]: the cleanup runs when the body
    returns or panics. *)
Definition defer {A : Type} (cleanup : World -> World) (body : M A) : M A :=
  fun w => let (r, w') := body w in (r, cleanup w').

Declare Scope go_scope.
Delimit Scope go_scope with go.
Notation "x <- m ;; k" := (bind m (fun x => k))
  (at level 100, m at next level, right associativity) : go_scope.
Notation "m ;;; k" := (bind m (fun _ => k))
  (at level 100, right associativity) : go_scope.
Open Scope go_scope.

Definition log (level : logLevel) (key : string) : M unit :=
  fun w => (Ret tt, emit (EvLog level key) w).

(** Modelled from the spec: [isLoaded()] reports whether list data has been
    loaded at all. *)
Definition isLoaded : M bool := fun w => (Ret (loaded w), w).

(** Modelled from the spec: [defaultFilter.test(entity, value)], the
    pre-filter's Test. *)
Definition test (entity value : string) : M bool :=
  fun w => (Ret (defaultFilter w entity value), emit (EvTest entity value) w).

(** Modelled from the spec: [getEntityRecordByKey(key)], the Record Store
    query: the entry, or an error. *)
Definition getEntityRecordByKey (key : string) : M (entityRecord + error) :=
  fun w => (Ret (entityStore w key), emit (EvGet key) w).

Definition RLock : M unit := fun w => (Ret tt, emit EvRLock w).
Definition RUnlock (w : World) : World := emit EvRUnlock w.

(** The two results of a lookup: the sources and the error. *)
Definition result : Type := (list string * option error)%type.

Section Lookup.

(** [makeListCacheKey(entity, value)]: the store key of an entity. *)
Variable makeListCacheKey : string -> string -> string.
(** The Unicode branch of strings.ToLower, [net.ParseIP] ([None] is the
    nil IP) and [net.IP.String]. *)
Variable unicodeLower : string -> string.
Variable ParseIP : string -> option IP.
Variable IPString : IP -> string.

(** lookupBlockLists loads the entity record for key from cache and
    returns the list of blocklist sources the key is part of. *)
Definition lookupBlockLists (entity value : string) : M result :=
  let key := makeListCacheKey entity value in
  isLoaded_ <- isLoaded ;;
  if negb isLoaded_ then
    log Warning key ;;;
    ret ([], None)
  else
    RLock ;;;
    defer RUnlock (
      hit <- test entity value ;;
      if negb hit then ret ([], None)
      else
        log Debug key ;;;
        r <- getEntityRecordByKey key ;;
        match r with
        | inr err =>
            if error_eqb err ErrNotFound then ret ([], None)
            else
              log Error key ;;;
              ret ([], Some err)
        | inl entry => ret (Sources entry, None)
        end).

Definition LookupCountry (country : string) : M result :=
  lookupBlockLists "country" country.

(** The first lines of LookupDomain: lower-case, then append a dot
    unless the last byte is one. [None] is the index panic. *)
Definition normalizeDomain (domain : string) : option string :=
  let domain := ToLower unicodeLower domain in
  match byteAt domain (Z.of_nat (String.length domain) - 1) with
  | None => None
  | Some c =>
      if negb (Ascii.eqb c ".") then Some (domain ++ ".")%string
      else Some domain
  end.

Definition LookupDomain (domain : string) : M result :=
  match normalizeDomain domain with
  | None => panic "runtime error: index out of range [-1]"
  | Some domain => lookupBlockLists "domain" domain
  end.

Definition LookupASNString (asn : string) : M result :=
  lookupBlockLists "asn" asn.

Definition LookupIPv4String (ipv4 : string) : M result :=
  lookupBlockLists "ipv4" ipv4.

Definition LookupIPv4 (ipv4 : IP) : M result :=
  match To4 ipv4 with
  | None => ret ([], Some (ErrorString "invalid IPv4"))
  | Some ip => LookupIPv4String (IPString ip)
  end.

Definition LookupIPv6String (ipv6 : string) : M result :=
  lookupBlockLists "ipv6" ipv6.

Definition LookupIPv6 (ipv6 : IP) : M result :=
  match To16 ipv6 with
  | None => ret ([], Some (ErrorString "invalid IPv6"))
  | Some ip => LookupIPv6String (IPString ip)
  end.

Definition LookupIP (ip : IP) : M result :=
  match To4 ip with
  | None => LookupIPv6 ip
  | Some _ => LookupIPv4 ip
  end.

Definition LookupIPString (ipStr : string) : M result :=
  match ParseIP ipStr with
  | None => ret ([], Some (ErrorString "invalid IP"))
  | Some ip => LookupIP ip
  end.

End Lookup.

(** The keys of the Record Store queries made so far. *)
Fixpoint storeQueries (t : list event) : list string :=
  match t with
  | [] => []
  | EvGet key :: rest => key :: storeQueries rest
  | _ :: rest => storeQueries rest
  end.

(** The pre-filter tests made so far. *)
Fixpoint filterTests (t : list event) : list (string * string) :=
  match t with
  | [] => []
  | EvTest entity value :: rest => (entity, value) :: filterTests rest
  | _ :: rest => filterTests rest
  end.

(** *** Stand-ins for running the lookups on concrete inputs *)

Definition stubKey (entity value : string) : string :=
  ("cache:intel/filterlists/" ++ entity ++ "/" ++ value)%string.

(** The loopback address ::1, 16 bytes. *)
Definition loopback6 : IP := repeat Byte.x00 15 ++ [Byte.x01].

(** 1.2.3.4 in the 16-byte form ParseIP returns. *)
Definition ip1234 : IP :=
  v4InV6Prefix ++ [Byte.x01; Byte.x02; Byte.x03; Byte.x04].

(** A table for the two addresses above; every other string is malformed. *)
Definition stubParseIP (s : string) : option IP :=
  if String.eqb s "1.2.3.4" then Some ip1234
  else if String.eqb s "::1" then Some loopback6
  else None.

Definition stubIPString (ip : IP) : string :=
  match ip with
  | [Byte.x01; Byte.x02; Byte.x03; Byte.x04] => "1.2.3.4"
  | _ => "::1"
  end.

(** Leaves strings with a byte outside ASCII as they are. *)
Definition stubUnicodeLower (s : string) : string := s.

(** Lists not loaded yet. *)
Definition notLoaded : World :=
  {| loaded := false;
     defaultFilter := fun _ _ => true;
     entityStore := fun _ => inr ErrNotFound;
     trace := [] |}.

(** Lists loaded, a pre-filter that rejects everything, and a store that
    would fail if it were asked. *)
Definition allRejected : World :=
  {| loaded := true;
     defaultFilter := fun _ _ => false;
     entityStore := fun _ => inr (ErrorString "store unavailable");
     trace := [] |}.

(** Lists loaded, a pre-filter that lets everything through, and a store
    that knows example.com. on one list. *)
Definition oneListed : World :=
  {| loaded := true;
     defaultFilter := fun _ _ => true;
     entityStore := fun key =>
       if String.eqb key (stubKey "domain" "example.com.")
       then inl {| Sources := ["TEST"] |}
       else inr ErrNotFound;
     trace := [] |}.

End FilterLists.

(** ** More of the Go standard library: strings.Join, strings.HasSuffix *)

Module GoText.

(** [strings.Join(elems, sep)]. *)
Fixpoint Join (elems : list string) (sep : string) : string :=
  match elems with
  | [] => ""
  | a :: rest =>
      match rest with
      | [] => a
      | _ :: _ => (a ++ sep ++ Join rest sep)%string
      end
  end.

(** [strings.HasSuffix(s, suffix)]:
    [len(s) >= len(suffix) && s[len(s)-len(suffix):] == suffix]. *)
Definition HasSuffix (s suffix : string) : bool :=
  (String.length suffix <=? String.length s)%nat
  && String.eqb
       (substring (String.length s - String.length suffix)
                  (String.length suffix) s)
       suffix.

End GoText.

(** ** Package resolver: String methods and GetIPInfo *)

Module ResolverStore.

Import Resolver GoText.

(** String returns a string representation of ResolvedDomain including
    the CNAME chain. *)
Definition ResolvedDomain_String (resolved : ResolvedDomain) : string :=
  let ret := Domain resolved in
  let cnames :=
    if (0 <? List.length (CNAMEs resolved))%nat
    then (" (-> " ++ Join (CNAMEs resolved) "->" ++ ")")%string
    else "" in
  (ret ++ cnames)%string.

(** String returns a string representation of all domains joined to a
    single string. *)
Definition ResolvedDomains_String (rds : list ResolvedDomain) : string :=
  Join (map ResolvedDomain_String rds) " or ".

(** What the record store hands back for a key: a wrapped record
    ([r.IsWrapped()]), a record that is an [*IPInfo] already, or a record of
    another Go type (named as [%T] prints it). *)
Inductive StoredRecord (Wrapper : Type) : Type :=
| Wrapped (payload : Wrapper)
| Typed (info : IPInfo)
| Foreign (typeName : string).
Arguments Wrapped {Wrapper} payload.
Arguments Typed {Wrapper} info.
Arguments Foreign {Wrapper} typeName.

Section Get.

(** The record store behind [ipInfoDatabase]: its state, its [Get], and
    [record.Unwrap] into a new IPInfo. *)
Variable DB : Type.
Variable Wrapper : Type.
Variable Get : string -> DB -> StoredRecord Wrapper + error.
Variable Unwrap : Wrapper -> IPInfo + error.

(** GetIPInfo gets an IPInfo record from the database. The two results are
    the record ([None] is nil) and the error. *)
Definition GetIPInfo (profileID ip : string) (db : DB)
  : option IPInfo * option error :=
  match Get (makeIPInfoKey profileID ip) db with
  | inr err => (None, Some err)
  | inl r =>
      match r with
      | Wrapped payload =>
          (* only allocate a new struct, if we need it *)
          match Unwrap payload with
          | inr err => (None, Some err)
          | inl new => (Some new, None)
          end
      | Typed new => (Some new, None)
      | Foreign typeName =>
          (None, Some (ErrorString
                         ("record not of type *IPInfo, but " ++ typeName)%string))
      end
  end.

End Get.

(** Whether the stand-in store still serves a record at the time [now]:
    the record has an absolute expiry and it is not in the past (the spec's
    absolute expiry: after it the record is eligible for eviction). *)
Definition servedAt (now : Z) (info : IPInfo) : bool :=
  match absoluteExpiry info with
  | Some expires => (now <=? expires)%Z
  | None => false
  end.

(** Get for the in-memory stand-in [MemDB] at the time [now]: the record
    filed last under the key, already typed, unless it is past its absolute
    expiry; NotFound otherwise. *)
Definition memGet (now : Z) (key : string) (db : MemDB)
  : StoredRecord unit + error :=
  match find (fun e => String.eqb (fst e) key) db with
  | Some (_, info) =>
      if servedAt now info then inl (Typed info) else inr ErrNotFound
  | None => inr ErrNotFound
  end.

Definition memUnwrap (payload : unit) : IPInfo + error :=
  inr (ErrorString "nothing is wrapped").

(** The first step of AddDomain on its own: the history with the first
    entry for [domain] cut out ([append(rds[:idx], rds[idx+1:]...)]). *)
Definition deleteOld (domain : string) (rds : list ResolvedDomain)
  : list ResolvedDomain :=
  match findDomain domain rds with
  | Some idx => firstn idx rds ++ skipn (S idx) rds
  | None => rds
  end.

(** The number of entries of a history for a domain. *)
Definition countDomain (d : string) (rds : list ResolvedDomain) : nat :=
  List.length (filter (fun r => String.eqb (Domain r) d) rds).

(** No call of the list names the domain of [r]. *)
Definition notCalled (calls : list ResolvedDomain) (r : ResolvedDomain) : bool :=
  negb (existsb (fun c => String.eqb (Domain c) (Domain r)) calls).

(** The string has no byte '/'. *)
Fixpoint noSlash (s : string) : bool :=
  match s with
  | EmptyString => true
  | String c rest => negb (Ascii.eqb c "/") && noSlash rest
  end.

End ResolverStore.

(** ** Package filterlists: readings of a trace *)

Module LookupTrace.

Import FilterLists.

(** The read locks held after the events, starting with [held] of them
    and following the events in order; [None] when an RUnlock comes while no
    lock is held. *)
Fixpoint lockWalk (held : nat) (t : list event) : option nat :=
  match t with
  | [] => Some held
  | EvRLock :: rest => lockWalk (S held) rest
  | EvRUnlock :: rest =>
      match held with
      | O => None
      | S h => lockWalk h rest
      end
  | _ :: rest => lockWalk held rest
  end.

Definition isLockEvent (e : event) : bool :=
  match e with
  | EvRLock | EvRUnlock => true
  | _ => false
  end.


Definition returned {A : Type} (r : Res A) : bool :=
  match r with Ret _ => true | Panic _ => false end.

(** Lists loaded, a pre-filter that lets everything through, and a store
    that fails on every query. *)
Definition storeDown : World :=
  {| loaded := true;
     defaultFilter := fun _ _ => true;
     entityStore := fun _ => inr (ErrorString "store unavailable");
     trace := [] |}.

End LookupTrace.

(** ** Package ui: serving files from bundles *)

Module UI.

Import GoText.

(** The errors the handlers tell apart: the two sentinels
    [resources.ErrNotFound] and [updater.ErrNotFound], and any other. *)
Inductive uiError : Type :=
| ResourcesErrNotFound
| UpdaterErrNotFound
| OtherError (msg : string).

Definition uiError_eqb (a b : uiError) : bool :=
  match a, b with
  | ResourcesErrNotFound, ResourcesErrNotFound => true
  | UpdaterErrNotFound, UpdaterErrNotFound => true
  | OtherError x, OtherError y => String.eqb x y
  | _, _ => false
  end.

Definition StatusOK : Z := 200.
Definition StatusBadRequest : Z := 400.
Definition StatusNotFound : Z := 404.
Definition StatusInternalServerError : Z := 500.

(** The text handed to [http.Error]: a literal, or [err.Error()]. *)
Inductive message : Type :=
| Text (s : string)
| ErrorOf (err : uiError).

(** What a handler does with the response writer and its collaborators, in
    order. *)
Inductive action : Type :=
| GetFile (identifier : string)             (* updates.GetFile *)
| OpenZip (path : string)                   (* resources.OpenZip *)
| LogTrace
| LogError
| HttpError (msg : message) (code : Z)      (* http.Error(w, msg, code) *)
| SetContentType (contentType : string)     (* w.Header().Set("Content-Type", _) *)
| WriteHeader (code : Z)
| Copy (body : string)                      (* io.Copy(w, readCloser) *)
| Close.                                    (* readCloser.Close() *)

(** A bundle, by its [Open(path)]: the file's bytes, or an error. *)
Definition Bundle : Type := string -> string + uiError.

(** The collaborators of the handlers: the update system, the zip reader,
    [filepath.Ext], [mime.TypeByExtension], and the response writer's answer
    to the body being copied to it ([None]: no error). *)
Record Env : Type := mkEnv {
  getFile : string -> string + uiError;
  openZip : string -> Bundle + uiError;
  Ext : string -> string;
  TypeByExtension : string -> string;
  copyError : string -> option uiError
}.

(** What a handler reads of the request and of the response writer: the
    method, the route variables, and whether the header has a Content-Type
    already. *)
Record Request : Type := mkRequest {
  Method : string;
  moduleNameVar : option string;
  resPathVar : option string;
  hasContentType : bool
}.

(** The package variable [apps]: the bundles opened so far, by module. *)
Definition Apps : Type := string -> option Bundle.

Definition noApps : Apps := fun _ => None.

Definition setApp (moduleName : string) (bundle : Bundle) (apps : Apps) : Apps :=
  fun k => if String.eqb k moduleName then Some bundle else apps k.

(** ServeFileFromBundle serves a file from the given bundle. *)
Definition ServeFileFromBundle (env : Env) (r : Request)
    (bundleName : string) (bundle : Bundle) (path : string) : list action :=
  let opened : (string * string) + list action :=
    match bundle path with
    | inl readCloser => inl (readCloser, path)
    | inr err =>
        if uiError_eqb err ResourcesErrNotFound then
          (* Check if there is a base index.html file we can serve instead. *)
          let path := "index.html" in
          match bundle path with
          | inr indexErr =>
              (* If we cannot get an index, continue with handling the
                 original error. *)
              inr [LogTrace; HttpError (ErrorOf err) StatusNotFound]
          | inl readCloser => inl (readCloser, path)
          end
        else inr [LogTrace; HttpError (ErrorOf err) StatusInternalServerError]
    end in
  match opened with
  | inr done => done
  | inl (readCloser, path) =>
      (* set content type *)
      let header :=
        if negb (hasContentType r) then
          let contentType := TypeByExtension env (Ext env path) in
          if negb (String.eqb contentType "")
          then [SetContentType contentType]
          else []
        else [] in
      let body :=
        if negb (String.eqb (Method r) "HEAD") then
          match copyError env readCloser with
          | Some err => [Copy readCloser; LogError]
          | None => [Copy readCloser; Close]
          end
        else [Close] in
      header ++ [WriteHeader StatusOK] ++ body
  end.

(** ServeBundle serves bundles: the handler it returns, run on a request
    with the bundles opened so far; the results are what it did and the
    bundles opened after it. *)
Definition ServeBundle (env : Env) (defaultModuleName : string)
    (r : Request) (apps : Apps) : list action * Apps :=
  let moduleName :=
    match moduleNameVar r with
    | Some moduleName => Some moduleName
    | None =>
        if String.eqb defaultModuleName "" then None
        else Some defaultModuleName
    end in
  match moduleName with
  | None => ([HttpError (Text "missing module name") StatusBadRequest], apps)
  | Some moduleName =>
      let resPath :=
        match resPathVar r with
        | Some resPath =>
            if HasSuffix resPath "/" then "index.html" else resPath
        | None => "index.html"
        end in
      match apps moduleName with
      | Some bundle =>
          (ServeFileFromBundle env r moduleName bundle resPath, apps)
      | None =>
          (* get file from update system *)
          let identifier := ("ui/modules/" ++ moduleName ++ ".zip")%string in
          match getFile env identifier with
          | inr err =>
              if uiError_eqb err UpdaterErrNotFound
              then ([GetFile identifier; LogTrace;
                     HttpError (ErrorOf err) StatusNotFound], apps)
              else ([GetFile identifier; LogTrace;
                     HttpError (ErrorOf err) StatusInternalServerError], apps)
          | inl zipFile =>
              (* open bundle *)
              match openZip env zipFile with
              | inr err =>
                  ([GetFile identifier; OpenZip zipFile; LogTrace;
                    HttpError (ErrorOf err) StatusInternalServerError], apps)
              | inl newBundle =>
                  let bundle := newBundle in
                  let apps := setApp moduleName bundle apps in
                  ([GetFile identifier; OpenZip zipFile]
                   ++ ServeFileFromBundle env r moduleName bundle resPath,
                   apps)
              end
          end
      end
  end.

(** The status codes a handler wrote, in order. *)
Fixpoint statuses (t : list action) : list Z :=
  match t with
  | [] => []
  | HttpError _ code :: rest => code :: statuses rest
  | WriteHeader code :: rest => code :: statuses rest
  | _ :: rest => statuses rest
  end.

(** The bodies copied to the response. *)
Fixpoint bodies (t : list action) : list string :=
  match t with
  | [] => []
  | Copy body :: rest => body :: bodies rest
  | _ :: rest => bodies rest
  end.

(** The identifiers fetched from the update system. *)
Fixpoint fetched (t : list action) : list string :=
  match t with
  | [] => []
  | GetFile identifier :: rest => identifier :: fetched rest
  | _ :: rest => fetched rest
  end.

(** The Content-Type values set. *)
Fixpoint contentTypes (t : list action) : list string :=
  match t with
  | [] => []
  | SetContentType c :: rest => c :: contentTypes rest
  | _ :: rest => contentTypes rest
  end.

Definition isClose (a : action) : bool :=
  match a with Close => true | _ => false end.

(** *** Stand-ins for running the handlers *)

(** A bundle with an index page and a script. *)
Definition demoBundle : Bundle :=
  fun path =>
    if String.eqb path "index.html" then inl "<html>"
    else if String.eqb path "app.js" then inl "js()"
    else inr ResourcesErrNotFound.

(** An update system that has the module portmaster only. *)
Definition demoEnv : Env :=
  {| getFile := fun identifier =>
       if String.eqb identifier "ui/modules/portmaster.zip"
       then inl "/updates/portmaster.zip"
       else inr UpdaterErrNotFound;
     openZip := fun _ => inl demoBundle;
     Ext := fun path => if String.eqb path "index.html" then ".html" else ".js";
     TypeByExtension := fun ext =>
       if String.eqb ext ".html" then "text/html; charset=utf-8"
       else "text/javascript; charset=utf-8";
     copyError := fun _ => None |}.

(** ServeBundle with its two critical sections apart. [seen] is apps as the
    handler reads it under appsLock.RLock; [current] is apps when the handler
    takes appsLock.Lock for the insert, after other requests may have run.
    The second result is apps as the handler leaves it: [current] itself on
    every path that does not insert. *)
Definition ServeBundleInterleaved (env : Env) (defaultModuleName : string)
    (r : Request) (seen current : Apps) : list action * Apps :=
  let moduleName :=
    match moduleNameVar r with
    | Some moduleName => Some moduleName
    | None =>
        if String.eqb defaultModuleName "" then None
        else Some defaultModuleName
    end in
  match moduleName with
  | None =>
      ([HttpError (Text "missing module name") StatusBadRequest], current)
  | Some moduleName =>
      let resPath :=
        match resPathVar r with
        | Some resPath =>
            if HasSuffix resPath "/" then "index.html" else resPath
        | None => "index.html"
        end in
      match seen moduleName with
      | Some bundle =>
          (ServeFileFromBundle env r moduleName bundle resPath, current)
      | None =>
          let identifier := ("ui/modules/" ++ moduleName ++ ".zip")%string in
          match getFile env identifier with
          | inr err =>
              if uiError_eqb err UpdaterErrNotFound
              then ([GetFile identifier; LogTrace;
                     HttpError (ErrorOf err) StatusNotFound], current)
              else ([GetFile identifier; LogTrace;
                     HttpError (ErrorOf err) StatusInternalServerError],
                    current)
          | inl zipFile =>
              match openZip env zipFile with
              | inr err =>
                  ([GetFile identifier; OpenZip zipFile; LogTrace;
                    HttpError (ErrorOf err) StatusInternalServerError],
                   current)
              | inl newBundle =>
                  let bundle := newBundle in
                  ([GetFile identifier; OpenZip zipFile]
                   ++ ServeFileFromBundle env r moduleName bundle resPath,
                   setApp moduleName bundle current)
              end
          end
      end
  end.

(** The path ServeBundle serves for a request: index.html when the route
    has no resPath or one that ends in a slash. *)
Definition resPathOf (r : Request) : string :=
  match resPathVar r with
  | Some resPath => if HasSuffix resPath "/" then "index.html" else resPath
  | None => "index.html"
  end.

Definition getRequest (moduleName resPath : option string) : Request :=
  {| Method := "GET"; moduleNameVar := moduleName; resPathVar := resPath;
     hasContentType := false |}.

End UI.

(** * Properties *)

Module Int64Facts.

Import Int64.

Lemma wrap_in_range (z : Z) : in_range z -> wrap z = z.
Proof.
  unfold in_range, wrap, min_int, max_int. intros H.
  rewrite Z.mod_small; lia.
Qed.

Lemma wrap_range (z : Z) : in_range (wrap z).
Proof.
  unfold in_range, wrap, min_int, max_int.
  pose proof (Z.mod_pos_bound (z + 2 ^ 63) (2 ^ 64)) as H. lia.
Qed.

End Int64Facts.

(** ** The resolved-domain history *)

Module HistoryFacts.

Import Resolver.

Lemma filter_id {A : Type} (f : A -> bool) (l : list A) :
  (forall x, In x l -> f x = true) -> filter f l = l.
Proof.
  induction l as [|x l IH]; simpl; intros H; [reflexivity|].
  rewrite (H x (or_introl eq_refl)). f_equal. apply IH.
  intros y Hy. apply H. now right.
Qed.

(** On a history without duplicate domains, the scan-and-splice of
    AddDomain removes every entry of the domain. *)
Lemma splice_filter (d : string) (l : list ResolvedDomain) :
  NoDup (map Domain l) ->
  match findDomain d l with
  | Some idx => firstn idx l ++ skipn (S idx) l
  | None => l
  end = filter (otherDomain d) l.
Proof.
  induction l as [|x l IH]; simpl; intros Hnd; [reflexivity|].
  inversion Hnd as [|? ? Hnotin Hnd']; subst.
  unfold otherDomain at 1.
  destruct (String.eqb (Domain x) d) eqn:E; simpl.
  - apply String.eqb_eq in E. subst d. symmetry. apply filter_id.
    intros y Hy. unfold otherDomain.
    destruct (String.eqb (Domain y) (Domain x)) eqn:E'; [|reflexivity].
    apply String.eqb_eq in E'. exfalso. apply Hnotin.
    rewrite <- E'. now apply in_map.
  - rewrite <- (IH Hnd').
    destruct (findDomain d l) as [idx|]; reflexivity.
Qed.

Lemma AddDomain_history (info : IPInfo) (r : ResolvedDomain) :
  NoDup (map Domain (ResolvedDomains info)) ->
  ResolvedDomains (AddDomain info r)
  = filter (otherDomain (Domain r)) (ResolvedDomains info) ++ [r].
Proof.
  intros Hnd. unfold AddDomain. simpl. now rewrite splice_filter.
Qed.

Lemma lastSeen_incl (calls : list ResolvedDomain) (r : ResolvedDomain) :
  In r (lastSeen calls) -> In r calls.
Proof.
  induction calls as [|c rest IH]; simpl; [tauto|].
  destruct (existsb _ rest); simpl; intuition.
Qed.

Lemma lastSeen_NoDup (calls : list ResolvedDomain) :
  NoDup (map Domain (lastSeen calls)).
Proof.
  induction calls as [|c rest IH]; simpl; [constructor|].
  destruct (existsb _ rest) eqn:E; [assumption|].
  simpl. constructor; [|assumption].
  intros Hin. apply in_map_iff in Hin. destruct Hin as [r [Hd Hr]].
  apply lastSeen_incl in Hr.
  assert (existsb (fun r0 => String.eqb (Domain r0) (Domain c)) rest = true) as Hex.
  { apply existsb_exists. exists r. split; [assumption|].
    now apply String.eqb_eq. }
  congruence.
Qed.

(** Appending one call to the sequence: its domain's older entry goes, the
    call comes last. *)
Lemma lastSeen_snoc (calls : list ResolvedDomain) (c : ResolvedDomain) :
  lastSeen (calls ++ [c])
  = filter (otherDomain (Domain c)) (lastSeen calls) ++ [c].
Proof.
  induction calls as [|a l IH]; [reflexivity|].
  change ((a :: l) ++ [c]) with (a :: (l ++ [c])).
  cbn [lastSeen]. rewrite existsb_app, IH. cbn [existsb].
  rewrite orb_false_r, (String.eqb_sym (Domain c) (Domain a)).
  destruct (String.eqb (Domain a) (Domain c)) eqn:E.
  - rewrite orb_true_r.
    destruct (existsb _ l); [reflexivity|].
    cbn [filter]. unfold otherDomain at 2. now rewrite E.
  - rewrite orb_false_r.
    destruct (existsb _ l); [reflexivity|].
    cbn [filter]. unfold otherDomain at 2. now rewrite E.
Qed.

Lemma addAll_snoc (info : IPInfo) (calls : list ResolvedDomain) (c : ResolvedDomain) :
  addAll info (calls ++ [c]) = AddDomain (addAll info calls) c.
Proof. unfold addAll. now rewrite fold_left_app. Qed.

Lemma addAll_lastSeen (ip profileID : string) (calls : list ResolvedDomain) :
  ResolvedDomains (addAll (newIPInfo ip profileID) calls) = lastSeen calls.
Proof.
  induction calls as [|c calls IH] using rev_ind; [reflexivity|].
  rewrite addAll_snoc, AddDomain_history, IH, lastSeen_snoc; [reflexivity|].
  rewrite IH. apply lastSeen_NoDup.
Qed.

(** An entry is in the history exactly when it is a call that no later
    call of the same domain follows. *)
Lemma lastSeen_In (calls : list ResolvedDomain) (rd : ResolvedDomain) :
  In rd (lastSeen calls) <->
  exists pre post, calls = pre ++ rd :: post /\
                   forall r, In r post -> Domain r <> Domain rd.
Proof.
  induction calls as [|c rest IH]; simpl.
  - split; [tauto|]. intros [pre [post [H _]]]. now destruct pre.
  - destruct (existsb _ rest) eqn:E.
    + rewrite IH. split.
      * intros [pre [post [H1 H2]]]. exists (c :: pre), post.
        split; [now rewrite H1|assumption].
      * intros [pre [post [H1 H2]]]. destruct pre as [|p pre].
        -- simpl in H1. injection H1 as -> ->.
           apply existsb_exists in E. destruct E as [r [Hr Hd]].
           apply String.eqb_eq in Hd. now apply H2 in Hr.
        -- simpl in H1. injection H1 as -> ->. now exists pre, post.
    + simpl. rewrite IH. split.
      * intros [->|[pre [post [H1 H2]]]].
        -- exists [], rest. split; [reflexivity|].
           intros r Hr Hd.
           assert (existsb (fun r0 => String.eqb (Domain r0) (Domain rd)) rest = true) as Hex.
           { apply existsb_exists. exists r. split; [assumption|].
             now apply String.eqb_eq. }
           congruence.
        -- exists (c :: pre), post.
           split; [now rewrite H1|assumption].
      * intros [pre [post [H1 H2]]]. destruct pre as [|p pre].
        -- simpl in H1. injection H1 as -> ->. now left.
        -- simpl in H1. injection H1 as -> ->. right. now exists pre, post.
Qed.

Lemma lastCall_snoc (calls : list ResolvedDomain) (c : ResolvedDomain) :
  lastCall (calls ++ [c]) = Some c.
Proof.
  induction calls as [|a l IH]; [reflexivity|].
  simpl. destruct (l ++ [c]) eqn:E; [now destruct l|assumption].
Qed.

Lemma MostRecentDomain_snoc (info : IPInfo) (l : list ResolvedDomain) (c : ResolvedDomain) :
  ResolvedDomains info = l ++ [c] -> MostRecentDomain info = Some c.
Proof.
  intros H. unfold MostRecentDomain. rewrite H, length_app. simpl.
  replace (List.length l + 1 - 1)%nat with (List.length l) by lia.
  replace (Nat.eqb (List.length l + 1) 0) with false
    by (symmetry; apply Nat.eqb_neq; lia).
  rewrite nth_error_app2, Nat.sub_diag; [reflexivity|lia].
Qed.

Lemma MostRecentDomain_addAll (ip profileID : string) (calls : list ResolvedDomain) :
  MostRecentDomain (addAll (newIPInfo ip profileID) calls) = lastCall calls.
Proof.
  destruct calls as [|c calls _] using rev_ind; [reflexivity|].
  rewrite lastCall_snoc.
  apply MostRecentDomain_snoc with
    (l := filter (otherDomain (Domain c)) (lastSeen calls)).
  now rewrite addAll_lastSeen, lastSeen_snoc.
Qed.

(** C2. Starting from an empty history, after any sequence of AddDomain
    calls the history is the sequence of calls with every call dropped
    that a later call of the same domain follows (so the entries are in
    last-seen order, most recent last); it has at most one entry per
    domain; an entry is in it exactly when it is the most recently added
    one for its domain; and MostRecentDomain returns the last call, or
    nothing when there was no call. *)
Theorem AddDomain_dedup_recency (ip profileID : string) (calls : list ResolvedDomain) :
  let info := addAll (newIPInfo ip profileID) calls in
  ResolvedDomains info = lastSeen calls
  /\ NoDup (map Domain (ResolvedDomains info))
  /\ (forall rd, In rd (ResolvedDomains info) <->
        exists pre post, calls = pre ++ rd :: post /\
                         forall r, In r post -> Domain r <> Domain rd)
  /\ MostRecentDomain info = lastCall calls
  /\ (MostRecentDomain info = None <-> calls = [])
  /\ MostRecentDomain info
     = nth_error (ResolvedDomains info) (List.length (ResolvedDomains info) - 1).
Proof.
  intros info. subst info.
  rewrite addAll_lastSeen, MostRecentDomain_addAll.
  repeat split.
  - apply lastSeen_NoDup.
  - apply lastSeen_In.
  - apply lastSeen_In.
  - destruct calls as [|c calls _] using rev_ind; [reflexivity|].
    rewrite lastCall_snoc. discriminate.
  - intros ->. reflexivity.
  - destruct calls as [|c calls _] using rev_ind; [reflexivity|].
    rewrite lastCall_snoc, lastSeen_snoc, length_app. simpl.
    rewrite nth_error_app2 by lia.
    replace (_ - _)%nat with 0%nat by lia. reflexivity.
Qed.

(** The scenario of the spec: a.com, b.com, a.com again. *)
Example AddDomain_scenario :
  let a1 := mkResolvedDomain "a.com" [] 100 in
  let b := mkResolvedDomain "b.com" [] 200 in
  let a3 := mkResolvedDomain "a.com" [] 300 in
  let info := addAll (newIPInfo "1.2.3.4" "") [a1; b; a3] in
  ResolvedDomains info = [b; a3] /\ MostRecentDomain info = Some a3.
Proof. split; reflexivity. Qed.

End HistoryFacts.

(** ** Save: store key and expiry *)

Module SaveFacts.

Import Resolver.

Lemma raise_max (expires : Z) (rd : ResolvedDomain) :
  raise expires rd = Z.max expires (Expires rd).
Proof.
  unfold raise. rewrite Z.gtb_ltb.
  destruct (Z.ltb_spec expires (Expires rd)); lia.
Qed.

Lemma fold_raise_lower (l : list ResolvedDomain) (acc : Z) :
  (acc <= fold_left raise l acc)%Z.
Proof.
  revert acc. induction l as [|x l IH]; intros acc; simpl; [lia|].
  specialize (IH (raise acc x)). pose proof (raise_max acc x) as Hm. lia.
Qed.

Lemma fold_raise_upper (l : list ResolvedDomain) (acc m : Z) :
  (acc <= m)%Z -> (forall rd, In rd l -> (Expires rd <= m)%Z) ->
  (fold_left raise l acc <= m)%Z.
Proof.
  revert acc. induction l as [|x l IH]; intros acc Hacc Hl; simpl; [lia|].
  apply IH.
  - rewrite raise_max. specialize (Hl x (or_introl eq_refl)). lia.
  - intros rd Hrd. apply Hl. now right.
Qed.

Lemma fold_raise_member (l : list ResolvedDomain) (acc : Z) (rd : ResolvedDomain) :
  In rd l -> (Expires rd <= fold_left raise l acc)%Z.
Proof.
  revert acc. induction l as [|x l IH]; intros acc; simpl; [tauto|].
  intros [->|Hin]; [|now apply IH].
  pose proof (fold_raise_lower l (raise acc rd)) as H.
  pose proof (raise_max acc rd) as Hm. lia.
Qed.

(** With an entry above the floor, the loop ends at the maximum Expires. *)
Lemma fold_raise_exact (l : list ResolvedDomain) (floor m : Z) :
  (floor < m)%Z ->
  (exists rd, In rd l /\ Expires rd = m) ->
  (forall rd, In rd l -> (Expires rd <= m)%Z) ->
  fold_left raise l floor = m.
Proof.
  intros Hfloor [rd [Hin Hm]] Hmax.
  pose proof (fold_raise_member l floor rd Hin) as H1.
  pose proof (fold_raise_upper l floor m ltac:(lia) Hmax) as H2. lia.
Qed.

Section WithStore.

Variable DB : Type.
Variable Put : IPInfo -> DB -> DB * option error.

Lemma Save_history (now : Z) (info : IPInfo) (db : DB) :
  ResolvedDomains (fst (Save DB Put now info db)) = ResolvedDomains info.
Proof.
  unfold Save. destruct (KeyIsSet (base info)); simpl; [reflexivity|].
  destruct (String.eqb (ProfileID info) ""); reflexivity.
Qed.

(** What Save stores as absolute expiry. *)
Lemma Save_expiry (now : Z) (info : IPInfo) (db : DB) :
  absoluteExpiry (fst (Save DB Put now info db))
  = Some (Int64.add (fold_left raise (ResolvedDomains info) 86400%Z) 3600%Z).
Proof.
  unfold Save, absoluteExpiry.
  destruct (KeyIsSet (base info)); simpl; [reflexivity|].
  destruct (String.eqb (ProfileID info) ""); reflexivity.
Qed.

Lemma Save_key_unset (now : Z) (info : IPInfo) (db : DB) :
  KeyIsSet (base info) = false ->
  let info' := fst (Save DB Put now info db) in
  ProfileID info'
  = (if String.eqb (ProfileID info) "" then "global" else ProfileID info)
  /\ dbKey (base info')
     = Some ("cache:intel/ipInfo/" ++ ProfileID info' ++ "/" ++ IP info)%string
  /\ IP info' = IP info.
Proof.
  intros Hkey. unfold Save. rewrite Hkey. simpl.
  destruct (String.eqb (ProfileID info) ""); simpl;
    unfold SetKey; rewrite Hkey; repeat split; reflexivity.
Qed.

Lemma Save_key_set (now : Z) (info : IPInfo) (db : DB) :
  KeyIsSet (base info) = true ->
  let info' := fst (Save DB Put now info db) in
  dbKey (base info') = dbKey (base info)
  /\ ProfileID info' = ProfileID info /\ IP info' = IP info.
Proof.
  intros Hkey. unfold Save. rewrite Hkey. simpl. repeat split; reflexivity.
Qed.

Lemma Save_KeyIsSet (now : Z) (info : IPInfo) (db : DB) :
  KeyIsSet (base (fst (Save DB Put now info db))) = true.
Proof.
  destruct (KeyIsSet (base info)) eqn:Hkey.
  - destruct (Save_key_set now info db Hkey) as [H _].
    unfold KeyIsSet in *. now rewrite H.
  - destruct (Save_key_unset now info db Hkey) as (_ & H & _).
    unfold KeyIsSet. now rewrite H.
Qed.

Lemma AddDomain_base (info : IPInfo) (rd : ResolvedDomain) :
  base (AddDomain info rd) = base info.
Proof. reflexivity. Qed.

Lemma addAll_base (calls : list ResolvedDomain) (info : IPInfo) :
  base (fold_left AddDomain calls info) = base info.
Proof.
  revert info. induction calls as [|c calls IH]; intros info; simpl;
    [reflexivity|]. now rewrite IH, AddDomain_base.
Qed.

Lemma lifetime_cons (calls : list ResolvedDomain) (now : Z)
    (rest : list (list ResolvedDomain * Z)) (info : IPInfo) (db : DB) :
  lifetime DB Put ((calls, now) :: rest) info db
  = let r := Save DB Put now (fold_left AddDomain calls info) db in
    lifetime DB Put rest (fst r) (fst (snd r)).
Proof.
  cbn [lifetime].
  destruct (Save DB Put now (fold_left AddDomain calls info) db)
    as [info' [db' err]].
  reflexivity.
Qed.

Lemma lifetime_key (rounds : list (list ResolvedDomain * Z))
    (info : IPInfo) (db : DB) :
  KeyIsSet (base info) = true ->
  dbKey (base (fst (lifetime DB Put rounds info db))) = dbKey (base info).
Proof.
  revert info db. induction rounds as [|[calls now] rest IH];
    intros info db Hkey; [reflexivity|].
  rewrite lifetime_cons. cbv zeta.
  rewrite IH by apply Save_KeyIsSet.
  assert (KeyIsSet (base (fold_left AddDomain calls info)) = true) as Hk
    by now rewrite addAll_base.
  destruct (Save_key_set now _ db Hk) as [H _].
  now rewrite H, addAll_base.
Qed.

(** With an entry above the floor and room for the buffer in an int64, the
    stored expiry is the maximum Expires plus one hour. *)
Lemma Save_expiry_exact (now : Z) (info : IPInfo) (db : DB) (m : Z) :
  (exists rd, In rd (ResolvedDomains info) /\ Expires rd = m) ->
  (forall rd, In rd (ResolvedDomains info) -> (Expires rd <= m)%Z) ->
  (86400 < m)%Z ->
  (m + 3600 <= Int64.max_int)%Z ->
  absoluteExpiry (fst (Save DB Put now info db)) = Some (m + 3600)%Z.
Proof.
  intros Hin Hmax Hfloor Hfit.
  rewrite Save_expiry, (fold_raise_exact _ _ m Hfloor Hin Hmax).
  unfold Int64.add. rewrite Int64Facts.wrap_in_range; [reflexivity|].
  unfold Int64.in_range, Int64.min_int, Int64.max_int in *. lia.
Qed.

(** Without an entry above 86400 the stored expiry is the constant 90000,
    whatever the clock says. *)
Lemma Save_expiry_floor (now : Z) (info : IPInfo) (db : DB) :
  (forall rd, In rd (ResolvedDomains info) -> (Expires rd <= 86400)%Z) ->
  absoluteExpiry (fst (Save DB Put now info db)) = Some 90000%Z.
Proof.
  intros Hmax. rewrite Save_expiry.
  assert (fold_left raise (ResolvedDomains info) 86400%Z = 86400%Z) as ->.
  { pose proof (fold_raise_lower (ResolvedDomains info) 86400).
    pose proof (fold_raise_upper (ResolvedDomains info) 86400 86400
                  ltac:(lia) Hmax). lia. }
  reflexivity.
Qed.

(** The scenario of the spec at any time [now] of the epoch: expiries
    now+100 and now+200000 give now+200000+3600. *)
Lemma Save_expiry_scenario (now : Z) (ip profileID : string) (db : DB) :
  (0 <= now)%Z -> (now + 203600 <= Int64.max_int)%Z ->
  let info := addAll (newIPInfo ip profileID)
                [mkResolvedDomain "a.com" [] (now + 100);
                 mkResolvedDomain "b.com" [] (now + 200000)] in
  absoluteExpiry (fst (Save DB Put now info db))
  = Some (now + 200000 + 3600)%Z.
Proof.
  intros Hnow Hfit info.
  apply Save_expiry_exact; subst info; cbn [addAll fold_left].
  - eexists. split; [right; left; reflexivity|reflexivity].
  - intros rd [<-|[<-|[]]]; simpl; lia.
  - lia.
  - lia.
Qed.

End WithStore.

(** C1 (the code departs from it). Save on a record with an empty history,
    at the time 1700000000, stores the absolute expiry 90000: the floor of
    "one day" is the timestamp 86400 itself, not one day from now, so the
    stored expiry is far below now + 86400 + 3600. *)
Theorem Save_floor_is_absolute :
  let now := 1700000000%Z in
  absoluteExpiry (fst (Save MemDB memPut now (newIPInfo "1.2.3.4" "") []))
  = Some 90000%Z
  /\ (90000 < now + 86400 + 3600)%Z.
Proof. split; [reflexivity|reflexivity]. Qed.

(** C6, as the claim states it, fails where the one-hour buffer overflows:
    with the single expiry 2^63-1 (above any floor) the stored expiry wraps
    around to a negative number, below the maximum plus 3600. *)
Lemma Save_expiry_overflow :
  let now := 1700000000%Z in
  let info := addAll (newIPInfo "1.2.3.4" "")
                [mkResolvedDomain "a.com" [] Int64.max_int] in
  (now + 86400 < Int64.max_int)%Z
  /\ absoluteExpiry (fst (Save MemDB memPut now info []))
     = Some (-9223372036854772209)%Z
  /\ absoluteExpiry (fst (Save MemDB memPut now info []))
     <> Some (Int64.max_int + 3600)%Z
  /\ (-9223372036854772209 < Int64.max_int + 3600)%Z.
Proof.
  cbv zeta. repeat split; try reflexivity. discriminate.
Qed.

(** C6 (amended). Let [now] be the time of the call, a time of the epoch
    (not negative). If some entry of the history has an Expires above the
    floor now + 86400, [m] is the maximum Expires over the history and
    m + 3600 fits an int64, then Save stores exactly m + 3600 as the
    absolute expiry, so never less. *)
Theorem Save_expiry_is_max_plus_buffer
    (DB : Type) (Put : IPInfo -> DB -> DB * option error)
    (now : Z) (info : IPInfo) (db : DB) (m : Z) :
  (0 <= now)%Z ->
  (exists rd, In rd (ResolvedDomains info) /\ Expires rd = m) ->
  (forall rd, In rd (ResolvedDomains info) -> (Expires rd <= m)%Z) ->
  (now + 86400 < m)%Z ->
  (m + 3600 <= Int64.max_int)%Z ->
  absoluteExpiry (fst (Save DB Put now info db)) = Some (m + 3600)%Z
  /\ (forall e, absoluteExpiry (fst (Save DB Put now info db)) = Some e ->
       (m + 3600 <= e)%Z).
Proof.
  intros Hnow Hin Hmax Hfloor Hfit.
  rewrite (Save_expiry_exact DB Put now info db m Hin Hmax
             ltac:(lia) Hfit).
  split; [reflexivity|]. intros e [= <-]. lia.
Qed.

(** The scenario of the spec, at now = 1700000000: expiries now+100 and
    now+200000 give the absolute expiry now+200000+3600. *)
Lemma Save_expiry_is_max_plus_buffer_witness :
  let now := 1700000000%Z in
  let info := addAll (newIPInfo "1.2.3.4" "")
                [mkResolvedDomain "a.com" [] (now + 100);
                 mkResolvedDomain "b.com" [] (now + 200000)] in
  absoluteExpiry (fst (Save MemDB memPut now info []))
  = Some (now + 200000 + 3600)%Z.
Proof.
  cbv zeta.
  refine (proj1 (Save_expiry_is_max_plus_buffer MemDB memPut 1700000000
                   _ [] 1700200000 _ _ _ _ _)).
  - vm_compute; discriminate.
  - exists (mkResolvedDomain "b.com" [] 1700200000).
    split; [right; left; reflexivity|reflexivity].
  - intros rd [<-|[<-|[]]]; vm_compute; discriminate.
  - reflexivity.
  - vm_compute; discriminate.
Defined.

(** C10. Save assigns the store key exactly once. On a record without a
    key, an empty ProfileID becomes "global" and the key becomes
    "cache:intel/ipInfo/<ProfileID>/<IP>" with the ProfileID just settled;
    on a record that has a key, key and ProfileID stay as they are; after
    Save the key is set, and it stays the same through every later round of
    AddDomain calls and Save. *)
Theorem Save_assigns_key_once
    (DB : Type) (Put : IPInfo -> DB -> DB * option error)
    (now : Z) (info : IPInfo) (db : DB) :
  let saved := fst (Save DB Put now info db) in
  (KeyIsSet (base info) = false ->
     ProfileID saved
     = (if String.eqb (ProfileID info) "" then "global" else ProfileID info)
     /\ dbKey (base saved)
        = Some ("cache:intel/ipInfo/" ++ ProfileID saved ++ "/" ++ IP info)%string)
  /\ (KeyIsSet (base info) = true ->
      dbKey (base saved) = dbKey (base info)
      /\ ProfileID saved = ProfileID info)
  /\ KeyIsSet (base saved) = true
  /\ (forall now' db', dbKey (base (fst (Save DB Put now' saved db')))
                       = dbKey (base saved))
  /\ (forall rounds db', dbKey (base (fst (lifetime DB Put rounds saved db')))
                         = dbKey (base saved)).
Proof.
  cbv zeta. repeat split.
  - now destruct (Save_key_unset DB Put now info db H) as (H1 & _).
  - now destruct (Save_key_unset DB Put now info db H) as (_ & H2 & _).
  - now destruct (Save_key_set DB Put now info db H) as (H1 & _).
  - now destruct (Save_key_set DB Put now info db H) as (_ & H2 & _).
  - apply Save_KeyIsSet.
  - intros now' db'.
    now destruct (Save_key_set DB Put now' _ db' (Save_KeyIsSet DB Put now info db)).
  - intros rounds db'. apply lifetime_key, Save_KeyIsSet.
Qed.

(** A fresh unscoped record for 1.2.3.4 gets the key
    "cache:intel/ipInfo/global/1.2.3.4", and a second Save keeps that key. *)
Lemma Save_assigns_key_once_witness :
  let saved := fst (Save MemDB memPut 1700000000 (newIPInfo "1.2.3.4" "") []) in
  dbKey (base saved) = Some "cache:intel/ipInfo/global/1.2.3.4"
  /\ ProfileID saved = "global"
  /\ dbKey (base (fst (Save MemDB memPut 1700000060 saved [])))
     = dbKey (base saved).
Proof.
  cbv zeta.
  destruct (Save_assigns_key_once MemDB memPut 1700000000
              (newIPInfo "1.2.3.4" "") []) as (H1 & _ & _ & H4 & _).
  destruct (H1 eq_refl) as (Hp & Hk).
  split; [exact Hk|]. split; [exact Hp|]. apply H4.
Defined.

End SaveFacts.

(** ** Blocklist lookups *)

Module LookupFacts.

Import GoStrings GoNet FilterLists.

Section Resolution.

Variable makeListCacheKey : string -> string -> string.

(** Step 1: lists not loaded. One warning, nothing else. *)
Lemma lookup_not_loaded (entity value : string) (w : World) :
  loaded w = false ->
  lookupBlockLists makeListCacheKey entity value w
  = (Ret ([], None), emit (EvLog Warning (makeListCacheKey entity value)) w).
Proof.
  intros H. unfold lookupBlockLists, bind, isLoaded, log, ret.
  rewrite H. reflexivity.
Qed.

(** Step 2: the pre-filter says no. *)
Lemma lookup_rejected (entity value : string) (w : World) :
  loaded w = true -> defaultFilter w entity value = false ->
  lookupBlockLists makeListCacheKey entity value w
  = (Ret ([], None), emitAll [EvRLock; EvTest entity value; EvRUnlock] w).
Proof.
  intros Hl Ht.
  unfold lookupBlockLists, bind, isLoaded, RLock, defer, test, ret.
  rewrite Hl. cbn. rewrite Ht. reflexivity.
Qed.

(** Steps 3 and 4: the pre-filter says maybe, the store decides. *)
Lemma lookup_possible_hit (entity value : string) (w : World) :
  loaded w = true -> defaultFilter w entity value = true ->
  let key := makeListCacheKey entity value in
  lookupBlockLists makeListCacheKey entity value w
  = match entityStore w key with
    | inl entry =>
        (Ret (Sources entry, None),
         emitAll [EvRLock; EvTest entity value; EvLog Debug key; EvGet key;
                  EvRUnlock] w)
    | inr ErrNotFound =>
        (Ret ([], None),
         emitAll [EvRLock; EvTest entity value; EvLog Debug key; EvGet key;
                  EvRUnlock] w)
    | inr err =>
        (Ret ([], Some err),
         emitAll [EvRLock; EvTest entity value; EvLog Debug key; EvGet key;
                  EvLog Error key; EvRUnlock] w)
    end.
Proof.
  intros Hl Ht key.
  unfold lookupBlockLists, bind, isLoaded, RLock, defer, test, log,
    getEntityRecordByKey, ret.
  rewrite Hl. cbn. rewrite Ht. cbn. fold key.
  destruct (entityStore w key) as [entry|[|msg]]; reflexivity.
Qed.

Lemma trace_emitAll (es : list event) (w : World) :
  trace (emitAll es w) = trace w ++ es.
Proof.
  revert w. induction es as [|e es IH]; intros w; simpl.
  - now rewrite app_nil_r.
  - rewrite IH. simpl. now rewrite <- app_assoc.
Qed.

Lemma storeQueries_app (t1 t2 : list event) :
  storeQueries (t1 ++ t2) = storeQueries t1 ++ storeQueries t2.
Proof.
  induction t1 as [|e t1 IH]; simpl; [reflexivity|].
  destruct e; simpl; now rewrite IH.
Qed.

Lemma filterTests_app (t1 t2 : list event) :
  filterTests (t1 ++ t2) = filterTests t1 ++ filterTests t2.
Proof.
  induction t1 as [|e t1 IH]; simpl; [reflexivity|].
  destruct e; simpl; now rewrite IH.
Qed.

End Resolution.

(** C4. For every entity kind and value, with the lists loaded and the
    pre-filter's test false for the value, the lookup returns no sources
    and no error, and makes no Record Store query: the world after it
    differs only by the read lock taken and released around the one test. *)
Theorem lookup_rejected_no_store_query
    (makeListCacheKey : string -> string -> string)
    (entity value : string) (w : World) :
  loaded w = true -> defaultFilter w entity value = false ->
  let (r, w') := lookupBlockLists makeListCacheKey entity value w in
  r = Ret ([], None)
  /\ trace w' = trace w ++ [EvRLock; EvTest entity value; EvRUnlock]
  /\ storeQueries (trace w') = storeQueries (trace w).
Proof.
  intros Hl Ht. rewrite (lookup_rejected _ _ _ _ Hl Ht).
  rewrite trace_emitAll, storeQueries_app. simpl.
  rewrite app_nil_r. repeat split.
Qed.

(** The scenario of the spec: LookupIPv4String("1.2.3.4") with a pre-filter
    that returns false gives the empty set without any store access. *)
Lemma lookup_rejected_no_store_query_witness :
  let (r, w') := LookupIPv4String stubKey "1.2.3.4" allRejected in
  r = Ret ([], None)
  /\ trace w' = [EvRLock; EvTest "ipv4" "1.2.3.4"; EvRUnlock]
  /\ storeQueries (trace w') = [].
Proof.
  exact (lookup_rejected_no_store_query stubKey "ipv4" "1.2.3.4" allRejected
           eq_refl eq_refl).
Defined.

(** C5. With the lists loaded and a possible hit from the pre-filter, the
    lookup queries the store once for the key of the value: NotFound gives
    no sources and no error, any other store error is returned to the
    caller, and an entry gives its Sources as they are. *)
Theorem lookup_store_outcomes
    (makeListCacheKey : string -> string -> string)
    (entity value : string) (w : World) :
  loaded w = true -> defaultFilter w entity value = true ->
  let key := makeListCacheKey entity value in
  let (r, w') := lookupBlockLists makeListCacheKey entity value w in
  storeQueries (trace w') = storeQueries (trace w) ++ [key]
  /\ (entityStore w key = inr ErrNotFound -> r = Ret ([], None))
  /\ (forall err, entityStore w key = inr err -> err <> ErrNotFound ->
        r = Ret ([], Some err))
  /\ (forall entry, entityStore w key = inl entry ->
        r = Ret (Sources entry, None)).
Proof.
  intros Hl Ht key.
  rewrite (lookup_possible_hit _ _ _ _ Hl Ht). fold key.
  destruct (entityStore w key) as [entry|[|msg]];
    rewrite trace_emitAll, storeQueries_app; simpl;
    (split; [reflexivity|]); repeat split; congruence.
Qed.

(** A listed domain, and a domain the store does not know. *)
Lemma lookup_store_outcomes_witness :
  fst (lookupBlockLists stubKey "domain" "example.com." oneListed)
  = Ret (["TEST"], None)
  /\ fst (lookupBlockLists stubKey "domain" "example.org." oneListed)
     = Ret ([], None).
Proof.
  pose proof (lookup_store_outcomes stubKey "domain" "example.com." oneListed
                eq_refl eq_refl) as H1.
  pose proof (lookup_store_outcomes stubKey "domain" "example.org." oneListed
                eq_refl eq_refl) as H2.
  cbv zeta in H1, H2.
  destruct (lookupBlockLists stubKey "domain" "example.com." oneListed) as [r1 w1].
  destruct (lookupBlockLists stubKey "domain" "example.org." oneListed) as [r2 w2].
  destruct H1 as (_ & _ & _ & H1). destruct H2 as (_ & H2 & _).
  split; [exact (H1 _ eq_refl)|exact (H2 eq_refl)].
Defined.

(** *** Domain normalization *)

Lemma lowerByte_idem (c : ascii) : lowerByte (lowerByte c) = lowerByte c.
Proof.
  destruct c as [b0 b1 b2 b3 b4 b5 b6 b7].
  destruct b0, b1, b2, b3, b4, b5, b6, b7; reflexivity.
Qed.

Lemma lowerByte_ascii (c : ascii) :
  (N_of_ascii c <? RuneSelf)%N = true ->
  (N_of_ascii (lowerByte c) <? RuneSelf)%N = true.
Proof.
  destruct c as [b0 b1 b2 b3 b4 b5 b6 b7].
  destruct b0, b1, b2, b3, b4, b5, b6, b7; vm_compute; intros H; exact H.
Qed.

Lemma isASCII_lower (s : string) :
  isASCII s = true -> isASCII (mapBytes lowerByte s) = true.
Proof.
  induction s as [|c s IH]; simpl; [reflexivity|].
  intros H. apply andb_true_iff in H. destruct H as [Hc Hs].
  now rewrite (lowerByte_ascii c Hc), IH.
Qed.

Lemma mapBytes_lower_idem (s : string) :
  mapBytes lowerByte (mapBytes lowerByte s) = mapBytes lowerByte s.
Proof.
  induction s as [|c s IH]; simpl; [reflexivity|].
  now rewrite lowerByte_idem, IH.
Qed.

Lemma mapBytes_app (f : ascii -> ascii) (a b : string) :
  mapBytes f (a ++ b)%string = (mapBytes f a ++ mapBytes f b)%string.
Proof. induction a as [|c a IH]; simpl; [reflexivity|]. now rewrite IH. Qed.

Lemma isASCII_app (a b : string) :
  isASCII (a ++ b)%string = isASCII a && isASCII b.
Proof.
  induction a as [|c a IH]; simpl; [reflexivity|].
  now rewrite IH, andb_assoc.
Qed.

Lemma length_append (a b : string) :
  String.length (a ++ b)%string = (String.length a + String.length b)%nat.
Proof. induction a as [|c a IH]; simpl; [reflexivity|]. now rewrite IH. Qed.

Lemma get_last (c : ascii) (l : string) :
  exists x, String.get (String.length l) (String c l) = Some x.
Proof.
  revert c. induction l as [|d l IH]; intros c; simpl.
  - now exists c.
  - apply IH.
Qed.

Lemma byteAt_last_index (l : string) (n : nat) :
  String.length l = S n ->
  byteAt l (Z.of_nat (String.length l) - 1) = String.get n l.
Proof.
  intros H. unfold byteAt. rewrite H.
  destruct (Z.ltb_spec (Z.of_nat (S n) - 1) 0); [lia|].
  destruct (Z.leb_spec (Z.of_nat (S n)) (Z.of_nat (S n) - 1)); [lia|].
  simpl orb. cbv iota. f_equal. lia.
Qed.

Lemma byteAt_last_nonempty (l : string) :
  l <> "" -> exists c, byteAt l (Z.of_nat (String.length l) - 1) = Some c.
Proof.
  destruct l as [|c l]; [congruence|]. intros _.
  rewrite (byteAt_last_index _ (String.length l)) by reflexivity.
  apply get_last.
Qed.

Lemma byteAt_last_dot (l : string) :
  byteAt (l ++ ".")%string (Z.of_nat (String.length (l ++ ".")%string) - 1) = Some "."%char.
Proof.
  rewrite (byteAt_last_index _ (String.length l))
    by (rewrite length_append; simpl; lia).
  pose proof (append_correct2 l "." 0) as H. simpl in H. now rewrite <- H.
Qed.

Lemma normalizeDomain_total (unicodeLower : string -> string) (s : string) :
  ToLower unicodeLower s <> "" ->
  exists k, normalizeDomain unicodeLower s = Some k.
Proof.
  intros H. unfold normalizeDomain.
  destruct (byteAt_last_nonempty _ H) as [c ->].
  destruct (negb (Ascii.eqb c ".")); eauto.
Qed.








(** *** Degraded mode, malformed addresses and the empty domain *)

Lemma To4_To16 (ip : IP) : To4 ip <> None -> To16 ip <> None.
Proof.
  unfold To4, To16.
  destruct (Nat.eqb (List.length ip) IPv4len); [discriminate|].
  destruct (Nat.eqb (List.length ip) IPv6len); [discriminate|].
  simpl. congruence.
Qed.

Section Degraded.

Variable makeListCacheKey : string -> string -> string.
Variable unicodeLower : string -> string.
Variable IPString : IP -> string.
Variable w : World.
Hypothesis not_loaded : loaded w = false.

Lemma not_loaded_result (entity value : string) :
  fst (lookupBlockLists makeListCacheKey entity value w) = Ret ([], None).
Proof. now rewrite lookup_not_loaded. Qed.

Lemma not_loaded_LookupDomain (domain : string) :
  ToLower unicodeLower domain <> "" ->
  fst (LookupDomain makeListCacheKey unicodeLower domain w) = Ret ([], None).
Proof.
  intros H. destruct (normalizeDomain_total unicodeLower domain H) as [k Hk].
  unfold LookupDomain. rewrite Hk. apply not_loaded_result.
Qed.

Lemma not_loaded_LookupIPv4 (ip : IP) :
  To4 ip <> None ->
  fst (LookupIPv4 makeListCacheKey IPString ip w) = Ret ([], None).
Proof.
  intros H. unfold LookupIPv4. destruct (To4 ip); [|congruence].
  apply not_loaded_result.
Qed.

Lemma not_loaded_LookupIPv6 (ip : IP) :
  To16 ip <> None ->
  fst (LookupIPv6 makeListCacheKey IPString ip w) = Ret ([], None).
Proof.
  intros H. unfold LookupIPv6. destruct (To16 ip); [|congruence].
  apply not_loaded_result.
Qed.

Lemma not_loaded_LookupIP (ip : IP) :
  To16 ip <> None ->
  fst (LookupIP makeListCacheKey IPString ip w) = Ret ([], None).
Proof.
  intros H. unfold LookupIP. destruct (To4 ip) eqn:E.
  - apply not_loaded_LookupIPv4. congruence.
  - now apply not_loaded_LookupIPv6.
Qed.

End Degraded.

(** C3, as the claim states it, fails for a net.IP wrapper: with the lists
    not loaded, LookupIPv4 on the 16-byte address ::1 (not an IPv4 address)
    returns the error "invalid IPv4". *)
Lemma not_loaded_LookupIPv4_rejects :
  loaded notLoaded = false
  /\ LookupIPv4 stubKey stubIPString loopback6 notLoaded
     = (Ret ([], Some (ErrorString "invalid IPv4")), notLoaded).
Proof. split; reflexivity. Qed.

(** C3 (amended). While the lists are not loaded, LookupCountry,
    LookupASNString, LookupIPv4String and LookupIPv6String return no sources
    and no error for every input; so does LookupDomain for every domain
    whose lower-cased form is not empty, LookupIPv4 for every IP that To4
    accepts, and LookupIPv6 and LookupIP for every IP that To16 accepts
    (length 4 or 16). In every state, loaded or not, an IP its wrapper does
    not accept is answered with an error before any lookup: "invalid IPv4"
    from LookupIPv4 when To4 gives nil, "invalid IPv6" from LookupIPv6 and
    from LookupIP when To16 gives nil. *)
Theorem not_loaded_fail_open
    (makeListCacheKey : string -> string -> string)
    (unicodeLower : string -> string) (IPString : IP -> string)
    (w : World) :
  (loaded w = false ->
     (forall country,
        fst (LookupCountry makeListCacheKey country w) = Ret ([], None))
     /\ (forall domain, ToLower unicodeLower domain <> "" ->
           fst (LookupDomain makeListCacheKey unicodeLower domain w)
           = Ret ([], None))
     /\ (forall asn,
           fst (LookupASNString makeListCacheKey asn w) = Ret ([], None))
     /\ (forall ipv4,
           fst (LookupIPv4String makeListCacheKey ipv4 w) = Ret ([], None))
     /\ (forall ipv6,
           fst (LookupIPv6String makeListCacheKey ipv6 w) = Ret ([], None))
     /\ (forall ip, To4 ip <> None ->
           fst (LookupIPv4 makeListCacheKey IPString ip w) = Ret ([], None))
     /\ (forall ip, To16 ip <> None ->
           fst (LookupIPv6 makeListCacheKey IPString ip w) = Ret ([], None))
     /\ (forall ip, To16 ip <> None ->
           fst (LookupIP makeListCacheKey IPString ip w) = Ret ([], None)))
  /\ (forall ip, To4 ip = None ->
        LookupIPv4 makeListCacheKey IPString ip w
        = (Ret ([], Some (ErrorString "invalid IPv4")), w))
  /\ (forall ip, To16 ip = None ->
        LookupIPv6 makeListCacheKey IPString ip w
        = (Ret ([], Some (ErrorString "invalid IPv6")), w))
  /\ (forall ip, To16 ip = None ->
        LookupIP makeListCacheKey IPString ip w
        = (Ret ([], Some (ErrorString "invalid IPv6")), w)).
Proof.
  split; [intros H; repeat split|repeat split].
  - intros country. now apply not_loaded_result.
  - intros domain. now apply not_loaded_LookupDomain.
  - intros asn. now apply not_loaded_result.
  - intros ipv4. now apply not_loaded_result.
  - intros ipv6. now apply not_loaded_result.
  - intros ip. now apply not_loaded_LookupIPv4.
  - intros ip. now apply not_loaded_LookupIPv6.
  - intros ip. now apply not_loaded_LookupIP.
  - intros ip E. unfold LookupIPv4. now rewrite E.
  - intros ip E. unfold LookupIPv6. now rewrite E.
  - intros ip E. unfold LookupIP, LookupIPv6.
    destruct (To4 ip) eqn:E4.
    + exfalso. apply (To4_To16 ip); congruence.
    + now rewrite E.
Qed.

(** Not loaded: a country, a domain and the address 1.2.3.4 through
    LookupIP all come back empty and without error. Loaded: a 5-byte IP is
    turned down by LookupIP. *)
Lemma not_loaded_fail_open_witness :
  fst (LookupCountry stubKey "DE" notLoaded) = Ret ([], None)
  /\ fst (LookupDomain stubKey stubUnicodeLower "Example.com" notLoaded)
     = Ret ([], None)
  /\ fst (LookupIP stubKey stubIPString ip1234 notLoaded) = Ret ([], None)
  /\ LookupIP stubKey stubIPString
       [Byte.x01; Byte.x02; Byte.x03; Byte.x04; Byte.x05] oneListed
     = (Ret ([], Some (ErrorString "invalid IPv6")), oneListed).
Proof.
  destruct (not_loaded_fail_open stubKey stubUnicodeLower stubIPString
              notLoaded) as (Hopen & _).
  destruct (Hopen eq_refl) as (Hc & Hd & _ & _ & _ & _ & _ & Hip).
  destruct (not_loaded_fail_open stubKey stubUnicodeLower stubIPString
              oneListed) as (_ & _ & _ & Hrej).
  split; [apply Hc|]. split; [apply Hd; discriminate|].
  split; [apply Hip; discriminate|]. apply Hrej. reflexivity.
Defined.

(** C8, as the claim states it, fails for LookupIPv4String: the malformed
    string "not-an-ip" is not rejected; it reaches the pre-filter as it is
    and the lookup returns without error. *)
Lemma LookupIPv4String_does_not_validate :
  stubParseIP "not-an-ip" = None
  /\ LookupIPv4String stubKey "not-an-ip" allRejected
     = (Ret ([], None),
        emitAll [EvRLock; EvTest "ipv4" "not-an-ip"; EvRUnlock] allRejected)
  /\ filterTests
       (trace (snd (LookupIPv4String stubKey "not-an-ip" allRejected)))
     = [("ipv4", "not-an-ip")].
Proof. repeat split. Qed.

(** C8 (amended). For every string that net.ParseIP rejects, LookupIPString
    fails with the error "invalid IP" and leaves the world as it was: no
    pre-filter test, no store query. LookupIPv4String and LookupIPv6String
    do not parse: they pass the string as it is to the shared lookup, under
    the kinds ipv4 and ipv6. *)
Theorem LookupIPString_rejects_malformed
    (makeListCacheKey : string -> string -> string)
    (ParseIP : string -> option IP) (IPString : IP -> string)
    (ipStr : string) (w : World) :
  ParseIP ipStr = None ->
  LookupIPString makeListCacheKey ParseIP IPString ipStr w
  = (Ret ([], Some (ErrorString "invalid IP")), w)
  /\ LookupIPv4String makeListCacheKey ipStr w
     = lookupBlockLists makeListCacheKey "ipv4" ipStr w
  /\ LookupIPv6String makeListCacheKey ipStr w
     = lookupBlockLists makeListCacheKey "ipv6" ipStr w.
Proof.
  intros H. unfold LookupIPString. rewrite H. repeat split.
Qed.

(** "not-an-ip" through LookupIPString, with everything listed. *)
Lemma LookupIPString_rejects_malformed_witness :
  LookupIPString stubKey stubParseIP stubIPString "not-an-ip" oneListed
  = (Ret ([], Some (ErrorString "invalid IP")), oneListed).
Proof.
  exact (proj1 (LookupIPString_rejects_malformed stubKey stubParseIP
                  stubIPString "not-an-ip" oneListed eq_refl)).
Defined.

(** C9 (the code departs from it). LookupDomain on the empty string panics:
    the lower-cased domain is empty and its last byte is read at index -1,
    before any lookup. *)
Theorem LookupDomain_empty_panics
    (makeListCacheKey : string -> string -> string)
    (unicodeLower : string -> string) (w : World) :
  LookupDomain makeListCacheKey unicodeLower "" w
  = (Panic "runtime error: index out of range [-1]", w).
Proof. reflexivity. Qed.

End LookupFacts.

(** ** More on the history: records that do not start empty *)

Module HistoryMore.

Import Resolver ResolverStore HistoryFacts.

Lemma AddDomain_deleteOld (info : IPInfo) (r : ResolvedDomain) :
  ResolvedDomains (AddDomain info r)
  = deleteOld (Domain r) (ResolvedDomains info) ++ [r].
Proof. reflexivity. Qed.

Lemma deleteOld_cons (d : string) (x : ResolvedDomain) (l : list ResolvedDomain) :
  deleteOld d (x :: l)
  = if String.eqb (Domain x) d then l else x :: deleteOld d l.
Proof.
  unfold deleteOld. simpl.
  destruct (String.eqb (Domain x) d); [reflexivity|].
  destruct (findDomain d l); reflexivity.
Qed.

Lemma otherDomain_eqb (d : string) (x : ResolvedDomain) :
  otherDomain d x = negb (String.eqb (Domain x) d).
Proof. reflexivity. Qed.

Lemma deleteOld_others (d : string) (l : list ResolvedDomain) :
  filter (otherDomain d) (deleteOld d l) = filter (otherDomain d) l.
Proof.
  induction l as [|x l IH]; [reflexivity|].
  rewrite deleteOld_cons. cbn [filter]. rewrite otherDomain_eqb.
  destruct (String.eqb (Domain x) d) eqn:E; cbn [negb]; [reflexivity|].
  cbn [filter]. rewrite otherDomain_eqb, E. cbn [negb]. now rewrite IH.
Qed.

Lemma countDomain_cons (d : string) (x : ResolvedDomain) (l : list ResolvedDomain) :
  countDomain d (x :: l)
  = if String.eqb (Domain x) d then S (countDomain d l) else countDomain d l.
Proof.
  unfold countDomain. cbn [filter].
  destruct (String.eqb (Domain x) d); reflexivity.
Qed.

Lemma deleteOld_length (d : string) (l : list ResolvedDomain) :
  List.length (deleteOld d l)
  = if (0 <? countDomain d l)%nat then pred (List.length l) else List.length l.
Proof.
  induction l as [|x l IH]; [reflexivity|].
  rewrite deleteOld_cons, countDomain_cons.
  destruct (String.eqb (Domain x) d) eqn:E; [reflexivity|].
  cbn [List.length]. rewrite IH.
  destruct (0 <? countDomain d l)%nat eqn:E0; [|reflexivity].
  destruct l as [|y l]; [discriminate E0|reflexivity].
Qed.

Lemma deleteOld_count (d : string) (l : list ResolvedDomain) :
  countDomain d (deleteOld d l) = pred (countDomain d l).
Proof.
  induction l as [|x l IH]; [reflexivity|].
  rewrite deleteOld_cons, countDomain_cons.
  destruct (String.eqb (Domain x) d) eqn:E; [reflexivity|].
  now rewrite countDomain_cons, E.
Qed.

Lemma countDomain_app (d : string) (a b : list ResolvedDomain) :
  countDomain d (a ++ b) = (countDomain d a + countDomain d b)%nat.
Proof. unfold countDomain. now rewrite filter_app, length_app. Qed.

(** X1. Whatever the history was, the entry just added is the most
    recent one. *)
Theorem AddDomain_is_most_recent (info : IPInfo) (r : ResolvedDomain) :
  MostRecentDomain (AddDomain info r) = Some r.
Proof.
  apply MostRecentDomain_snoc
    with (l := deleteOld (Domain r) (ResolvedDomains info)).
  apply AddDomain_deleteOld.
Qed.

(** X2. On any history, also one with several entries for a domain,
    AddDomain cuts out one old entry of the domain at most: the entries of
    the other domains stay, in their order; the history keeps its length
    when the domain was there and grows by one when it was not; and the
    domain has as many entries as before, or one when it had none. *)
Theorem AddDomain_cuts_one_entry (info : IPInfo) (r : ResolvedDomain) :
  let d := Domain r in
  let h := ResolvedDomains info in
  let h' := ResolvedDomains (AddDomain info r) in
  filter (otherDomain d) h' = filter (otherDomain d) h
  /\ List.length h'
     = (if (0 <? countDomain d h)%nat then List.length h else S (List.length h))
  /\ countDomain d h' = Nat.max 1 (countDomain d h).
Proof.
  cbv zeta. rewrite AddDomain_deleteOld. repeat split.
  - rewrite filter_app, deleteOld_others. cbn [filter].
    rewrite otherDomain_eqb, String.eqb_refl. cbn [negb].
    apply app_nil_r.
  - rewrite length_app, deleteOld_length. cbn [List.length].
    destruct (0 <? countDomain (Domain r) (ResolvedDomains info))%nat eqn:E;
      [|lia].
    apply Nat.ltb_lt in E. unfold countDomain in E.
    destruct (ResolvedDomains info); simpl in *; lia.
  - rewrite countDomain_app, deleteOld_count.
    rewrite (countDomain_cons (Domain r) r []), String.eqb_refl.
    change (countDomain (Domain r) []) with 0%nat. lia.
Qed.

Lemma filter_twice {A : Type} (f : A -> bool) (l : list A) :
  filter f (filter f l) = filter f l.
Proof.
  induction l as [|x l IH]; simpl; [reflexivity|].
  destruct (f x) eqn:E; simpl; [rewrite E|]; now rewrite ?IH.
Qed.

Lemma NoDup_filter_domains (f : ResolvedDomain -> bool) (l : list ResolvedDomain) :
  NoDup (map Domain l) -> NoDup (map Domain (filter f l)).
Proof.
  induction l as [|x l IH]; simpl; intros H; [constructor|].
  inversion H as [|? ? Hx Hl]; subst.
  destruct (f x); simpl; [|now apply IH].
  constructor; [|now apply IH].
  intros Hin. apply Hx. apply in_map_iff in Hin.
  destruct Hin as [y [Hy Hin]]. apply filter_In in Hin.
  rewrite <- Hy. apply in_map. tauto.
Qed.

Lemma AddDomain_NoDup (info : IPInfo) (r : ResolvedDomain) :
  NoDup (map Domain (ResolvedDomains info)) ->
  NoDup (map Domain (ResolvedDomains (AddDomain info r))).
Proof.
  intros H. rewrite (AddDomain_history info r H), map_app.
  apply NoDup_app.
  - now apply NoDup_filter_domains.
  - simpl. constructor; [tauto|constructor].
  - intros a Ha [<-|[]]. apply in_map_iff in Ha.
    destruct Ha as [y [Hy Hin]]. apply filter_In in Hin.
    destruct Hin as [_ Hin]. rewrite otherDomain_eqb, Hy, String.eqb_refl in Hin.
    discriminate Hin.
Qed.

(** X3. A history with one entry per domain keeps that shape under
    AddDomain, and afterwards holds exactly one entry for the domain
    added. *)
Theorem AddDomain_keeps_domains_unique (info : IPInfo) (r : ResolvedDomain) :
  NoDup (map Domain (ResolvedDomains info)) ->
  NoDup (map Domain (ResolvedDomains (AddDomain info r)))
  /\ countDomain (Domain r) (ResolvedDomains (AddDomain info r)) = 1%nat
  /\ ResolvedDomains (AddDomain info r)
     = filter (otherDomain (Domain r)) (ResolvedDomains info) ++ [r].
Proof.
  intros H. split; [now apply AddDomain_NoDup|]. split.
  - rewrite (AddDomain_history info r H), countDomain_app.
    rewrite (countDomain_cons (Domain r) r []), String.eqb_refl.
    assert (countDomain (Domain r)
              (filter (otherDomain (Domain r)) (ResolvedDomains info)) = 0%nat)
      as ->; [|reflexivity].
    unfold countDomain.
    induction (ResolvedDomains info) as [|x l IH]; [reflexivity|].
    inversion H; subst. cbn [filter]. rewrite otherDomain_eqb.
    destruct (String.eqb (Domain x) (Domain r)) eqn:E; cbn [negb];
      [now apply IH|].
    cbn [filter]. rewrite E. now apply IH.
  - now apply AddDomain_history.
Qed.

Lemma AddDomain_keeps_domains_unique_witness :
  let info := addAll (newIPInfo "1.2.3.4" "")
                [mkResolvedDomain "a.com" [] 100;
                 mkResolvedDomain "b.com" [] 200] in
  let r := mkResolvedDomain "a.com" ["cdn.a.com"] 300 in
  countDomain "a.com" (ResolvedDomains (AddDomain info r)) = 1%nat
  /\ map Domain (ResolvedDomains (AddDomain info r)) = ["b.com"; "a.com"].
Proof.
  cbv zeta.
  destruct (AddDomain_keeps_domains_unique
              (addAll (newIPInfo "1.2.3.4" "")
                 [mkResolvedDomain "a.com" [] 100;
                  mkResolvedDomain "b.com" [] 200])
              (mkResolvedDomain "a.com" ["cdn.a.com"] 300))
    as (_ & Hc & He).
  - repeat constructor; simpl; intuition discriminate.
  - split; [exact Hc|]. rewrite He. reflexivity.
Defined.

(** X4. On a history with one entry per domain, only the latest resolution
    of a domain counts: adding [r1] and then [r2] for the same domain leaves
    the history that adding [r2] alone leaves. In particular adding the same
    entry twice is the same as adding it once. *)
Theorem AddDomain_latest_wins (info : IPInfo) (r1 r2 : ResolvedDomain) :
  NoDup (map Domain (ResolvedDomains info)) ->
  Domain r1 = Domain r2 ->
  ResolvedDomains (AddDomain (AddDomain info r1) r2)
  = ResolvedDomains (AddDomain info r2).
Proof.
  intros H Hd.
  rewrite (AddDomain_history _ r2 (AddDomain_NoDup info r1 H)).
  rewrite (AddDomain_history info r1 H), (AddDomain_history info r2 H).
  rewrite filter_app, Hd, filter_twice. cbn [filter].
  rewrite otherDomain_eqb, Hd, String.eqb_refl. cbn [negb].
  now rewrite app_nil_r.
Qed.

Lemma AddDomain_latest_wins_witness :
  let info := newIPInfo "1.2.3.4" "" in
  let r1 := mkResolvedDomain "a.com" [] 100 in
  let r2 := mkResolvedDomain "a.com" ["cdn.a.com"] 300 in
  ResolvedDomains (AddDomain (AddDomain info r1) r2) = [r2].
Proof.
  cbv zeta.
  rewrite (AddDomain_latest_wins (newIPInfo "1.2.3.4" "")
             (mkResolvedDomain "a.com" [] 100)
             (mkResolvedDomain "a.com" ["cdn.a.com"] 300)).
  - reflexivity.
  - constructor.
  - reflexivity.
Defined.

Lemma notCalled_snoc (calls : list ResolvedDomain) (c r : ResolvedDomain) :
  notCalled (calls ++ [c]) r = notCalled calls r && otherDomain (Domain c) r.
Proof.
  unfold notCalled. rewrite existsb_app. cbn [existsb].
  rewrite orb_false_r, negb_orb, otherDomain_eqb.
  now rewrite (String.eqb_sym (Domain c) (Domain r)).
Qed.

Lemma filter_and {A : Type} (f g : A -> bool) (l : list A) :
  filter g (filter f l) = filter (fun x => f x && g x) l.
Proof.
  induction l as [|x l IH]; simpl; [reflexivity|].
  destruct (f x); simpl; [destruct (g x)|]; now rewrite IH.
Qed.

Lemma addAll_history_NoDup (info : IPInfo) (calls : list ResolvedDomain) :
  NoDup (map Domain (ResolvedDomains info)) ->
  NoDup (map Domain (ResolvedDomains (addAll info calls))).
Proof.
  intros H. induction calls as [|c calls IH] using rev_ind; [assumption|].
  rewrite addAll_snoc. now apply AddDomain_NoDup.
Qed.

(** X5. A record that starts with any history of one entry per domain
    (one loaded from the store, say): after a sequence of AddDomain calls
    the history is the old entries whose domain no call names, in their
    order, followed by the calls with every call dropped that a later call of
    the same domain follows. *)
Theorem addAll_on_loaded_history (info : IPInfo) (calls : list ResolvedDomain) :
  NoDup (map Domain (ResolvedDomains info)) ->
  ResolvedDomains (addAll info calls)
  = filter (notCalled calls) (ResolvedDomains info) ++ lastSeen calls.
Proof.
  intros H. induction calls as [|c calls IH] using rev_ind.
  - simpl. rewrite app_nil_r. symmetry. now apply filter_id.
  - rewrite addAll_snoc.
    rewrite (AddDomain_history _ c (addAll_history_NoDup info calls H)).
    rewrite IH, lastSeen_snoc, filter_app, filter_and, <- app_assoc.
    f_equal. apply filter_ext. intros r. apply eq_sym, notCalled_snoc.
Qed.

Lemma addAll_on_loaded_history_witness :
  let a := mkResolvedDomain "a.com" [] 100 in
  let b := mkResolvedDomain "b.com" [] 200 in
  let c := mkResolvedDomain "c.com" [] 300 in
  let a' := mkResolvedDomain "a.com" [] 400 in
  let loaded := addAll (newIPInfo "1.2.3.4" "") [a; b] in
  ResolvedDomains (addAll loaded [c; a']) = [b; c; a'].
Proof.
  cbv zeta.
  rewrite (addAll_on_loaded_history
             (addAll (newIPInfo "1.2.3.4" "")
                [mkResolvedDomain "a.com" [] 100;
                 mkResolvedDomain "b.com" [] 200])
             [mkResolvedDomain "c.com" [] 300;
              mkResolvedDomain "a.com" [] 400]).
  - reflexivity.
  - repeat constructor; simpl; intuition discriminate.
Defined.

End HistoryMore.

(** ** More on Save, GetIPInfo and the String methods *)

Module StoreMore.

Import Resolver ResolverStore GoText HistoryFacts SaveFacts.

(** X6. If every Expires of the history leaves room for the one-hour buffer
    in an int64, the absolute expiry Save stores is at least 90000 and at
    least one hour after the Expires of every entry: the record outlives
    every resolution folded into it. *)
Theorem Save_expiry_covers_every_entry
    (DB : Type) (Put : IPInfo -> DB -> DB * option error)
    (now : Z) (info : IPInfo) (db : DB) :
  (forall rd, In rd (ResolvedDomains info) ->
     (Expires rd + 3600 <= Int64.max_int)%Z) ->
  exists e, absoluteExpiry (fst (Save DB Put now info db)) = Some e
            /\ (90000 <= e)%Z
            /\ forall rd, In rd (ResolvedDomains info) ->
                 (Expires rd + 3600 <= e)%Z.
Proof.
  intros Hfit. rewrite Save_expiry.
  set (top := fold_left raise (ResolvedDomains info) 86400%Z).
  assert (86400 <= top)%Z as Hlow by apply fold_raise_lower.
  assert (top <= Int64.max_int - 3600)%Z as Hup.
  { apply fold_raise_upper.
    - unfold Int64.max_int. lia.
    - intros rd Hrd. specialize (Hfit rd Hrd). lia. }
  exists (top + 3600)%Z. split.
  - unfold Int64.add. rewrite Int64Facts.wrap_in_range; [reflexivity|].
    unfold Int64.in_range, Int64.min_int, Int64.max_int in *. lia.
  - split; [lia|]. intros rd Hrd.
    pose proof (fold_raise_member (ResolvedDomains info) 86400 rd Hrd).
    fold top in H. lia.
Qed.

Lemma Save_expiry_covers_every_entry_witness :
  let info := addAll (newIPInfo "1.2.3.4" "")
                [mkResolvedDomain "a.com" [] 1700000100;
                 mkResolvedDomain "b.com" [] 1700200000] in
  exists e, absoluteExpiry (fst (Save MemDB memPut 1700000000 info [])) = Some e
            /\ (90000 <= e)%Z
            /\ (1700200000 + 3600 <= e)%Z.
Proof.
  cbv zeta.
  destruct (Save_expiry_covers_every_entry MemDB memPut 1700000000
              (addAll (newIPInfo "1.2.3.4" "")
                 [mkResolvedDomain "a.com" [] 1700000100;
                  mkResolvedDomain "b.com" [] 1700200000]) [])
    as (e & He & Hlow & Hall).
  - intros rd [<-|[<-|[]]]; vm_compute; discriminate.
  - exists e. split; [exact He|]. split; [exact Hlow|].
    apply (Hall (mkResolvedDomain "b.com" [] 1700200000)).
    right; left; reflexivity.
Defined.

(** X7. Saving a record again, at any later time and with any store,
    changes neither its key, ProfileID, IP and history nor the absolute
    expiry stored. *)
Theorem Save_again_changes_nothing
    (DB : Type) (Put : IPInfo -> DB -> DB * option error)
    (now now' : Z) (info : IPInfo) (db db' : DB) :
  let saved := fst (Save DB Put now info db) in
  let again := fst (Save DB Put now' saved db') in
  dbKey (base again) = dbKey (base saved)
  /\ ProfileID again = ProfileID saved
  /\ IP again = IP saved
  /\ ResolvedDomains again = ResolvedDomains saved
  /\ absoluteExpiry again = absoluteExpiry saved.
Proof.
  cbv zeta.
  destruct (Save_key_set DB Put now' _ db' (Save_KeyIsSet DB Put now info db))
    as (Hk & Hp & Hi).
  repeat split; try assumption.
  - apply Save_history.
  - now rewrite !Save_expiry, !Save_history.
Qed.

Section RoundTrip.

Variable DB : Type.
Variable Wrapper : Type.
Variable Put : IPInfo -> DB -> DB * option error.
Variable Get : string -> DB -> StoredRecord Wrapper + error.
Variable Unwrap : Wrapper -> IPInfo + error.

Lemma Save_then_Get (now : Z) (info : IPInfo) (db : DB) :
  KeyIsSet (base info) = false ->
  snd (snd (Save DB Put now info db)) = None ->
  (forall key,
     dbKey (base (fst (Save DB Put now info db))) = Some key ->
     Get key (fst (snd (Save DB Put now info db)))
     = inl (Typed (fst (Save DB Put now info db)))
     \/ exists payload,
          Get key (fst (snd (Save DB Put now info db))) = inl (Wrapped payload)
          /\ Unwrap payload = inl (fst (Save DB Put now info db))) ->
  GetIPInfo DB Wrapper Get Unwrap
    (ProfileID (fst (Save DB Put now info db)))
    (IP (fst (Save DB Put now info db)))
    (fst (snd (Save DB Put now info db)))
  = (Some (fst (Save DB Put now info db)), None).
Proof.
  intros Hkey Herr Hget.
  pose proof (Save_key_unset DB Put now info db Hkey) as HH. cbv zeta in HH.
  destruct HH as (_ & Hk & Hi).
  unfold GetIPInfo, makeIPInfoKey. rewrite Hi.
  destruct (Hget _ Hk) as [E|[payload [E Eu]]]; rewrite E; [reflexivity|].
  now rewrite Eu.
Qed.

Lemma Save_Put (now : Z) (info : IPInfo) (db : DB) :
  snd (snd (Save DB Put now info db)) = None ->
  Put (fst (Save DB Put now info db)) db
  = (fst (snd (Save DB Put now info db)), None).
Proof.
  intros Herr. rewrite <- Herr. unfold Save. cbv zeta. cbn [fst snd].
  now destruct (Put _ db).
Qed.

End RoundTrip.

(** X8. Save, then GetIPInfo at the time [later]. Over a store that serves
    a record put without error under its key for as long as the record's
    absolute expiry is ahead (typed, or wrapped so that Unwrap restores it):
    a record without a key that Save stored without error is what GetIPInfo
    returns for the record's ProfileID (as Save left it) and IP, provided
    [later] is before the absolute expiry Save stored. *)
Theorem Save_GetIPInfo_round_trip
    (DB Wrapper : Type)
    (Put : IPInfo -> DB -> DB * option error)
    (GetAt : Z -> string -> DB -> StoredRecord Wrapper + error)
    (Unwrap : Wrapper -> IPInfo + error)
    (now later expires : Z) (info : IPInfo) (db : DB) :
  (forall info key db db' expires,
     dbKey (base info) = Some key ->
     Put info db = (db', None) ->
     absoluteExpiry info = Some expires ->
     (later < expires)%Z ->
     GetAt later key db' = inl (Typed info)
     \/ exists payload,
          GetAt later key db' = inl (Wrapped payload)
          /\ Unwrap payload = inl info) ->
  KeyIsSet (base info) = false ->
  snd (snd (Save DB Put now info db)) = None ->
  absoluteExpiry (fst (Save DB Put now info db)) = Some expires ->
  (later < expires)%Z ->
  let saved := fst (Save DB Put now info db) in
  let db' := fst (snd (Save DB Put now info db)) in
  GetIPInfo DB Wrapper (GetAt later) Unwrap (ProfileID saved) (IP saved) db'
  = (Some saved, None).
Proof.
  intros Hlaw Hkey Herr Hexp Hlater. cbv zeta.
  apply Save_then_Get; [assumption|assumption|].
  intros key Hk.
  exact (Hlaw _ key db _ expires Hk (Save_Put DB Put now info db Herr)
           Hexp Hlater).
Qed.

Lemma memGet_after_memPut (later : Z) (info : IPInfo) (key : string)
    (db db' : MemDB) (expires : Z) :
  dbKey (base info) = Some key ->
  memPut info db = (db', None) ->
  absoluteExpiry info = Some expires ->
  (later < expires)%Z ->
  memGet later key db' = inl (Typed info)
  \/ exists payload,
       memGet later key db' = inl (Wrapped payload)
       /\ memUnwrap payload = inl info.
Proof.
  unfold memPut, memGet, servedAt. intros -> [= <-] He Hl. left.
  cbn [find fst]. rewrite String.eqb_refl, He.
  destruct (Z.leb_spec later expires); [reflexivity|lia].
Qed.

(** A record for 1.2.3.4 with one resolution that expires at 1700200000,
    saved at 1700000000 and read 100 seconds later. *)
Lemma Save_GetIPInfo_round_trip_witness :
  let info := AddDomain (newIPInfo "1.2.3.4" "")
                (mkResolvedDomain "example.com" [] 1700200000) in
  let saved := fst (Save MemDB memPut 1700000000 info []) in
  let db' := fst (snd (Save MemDB memPut 1700000000 info [])) in
  GetIPInfo MemDB unit (memGet 1700000100) memUnwrap "global" "1.2.3.4" db'
  = (Some saved, None).
Proof.
  exact (Save_GetIPInfo_round_trip MemDB unit memPut memGet memUnwrap
           1700000000 1700000100 1700203600
           (AddDomain (newIPInfo "1.2.3.4" "")
              (mkResolvedDomain "example.com" [] 1700200000)) []
           (memGet_after_memPut 1700000100) eq_refl eq_refl eq_refl eq_refl).
Defined.



(** X10. GetIPInfo returns a record or an error, never both and never
    neither. An error of the store's Get (NotFound for a missing key
    among them) is returned as it is, an error of Unwrap as well, and a
    stored record of another type gives an error that names the type. *)
Theorem GetIPInfo_record_or_error
    (DB Wrapper : Type)
    (Get : string -> DB -> StoredRecord Wrapper + error)
    (Unwrap : Wrapper -> IPInfo + error)
    (profileID ip : string) (db : DB) :
  let key := makeIPInfoKey profileID ip in
  let res := GetIPInfo DB Wrapper Get Unwrap profileID ip db in
  ((exists info, res = (Some info, None)) \/ (exists err, res = (None, Some err)))
  /\ (forall err, Get key db = inr err -> res = (None, Some err))
  /\ (forall payload err, Get key db = inl (Wrapped payload) ->
        Unwrap payload = inr err -> res = (None, Some err))
  /\ (forall payload info, Get key db = inl (Wrapped payload) ->
        Unwrap payload = inl info -> res = (Some info, None))
  /\ (forall info, Get key db = inl (Typed info) -> res = (Some info, None))
  /\ (forall t, Get key db = inl (Foreign t) ->
        res = (None, Some (ErrorString
                             ("record not of type *IPInfo, but " ++ t)%string))).
Proof.
  cbv zeta. unfold GetIPInfo.
  destruct (Get (makeIPInfoKey profileID ip) db) as [[payload|info|t]|err].
  - destruct (Unwrap payload) as [info|err] eqn:E;
      (split; [eauto|]); repeat split; intros; congruence.
  - (split; [eauto|]); repeat split; intros; congruence.
  - (split; [eauto|]); repeat split; intros; congruence.
  - (split; [eauto|]); repeat split; intros; congruence.
Qed.

Lemma slash_free_split (p1 p2 ip1 ip2 : string) :
  noSlash p1 = true -> noSlash p2 = true ->
  (p1 ++ "/" ++ ip1)%string = (p2 ++ "/" ++ ip2)%string ->
  p1 = p2 /\ ip1 = ip2.
Proof.
  revert p2. induction p1 as [|c p1 IH]; intros [|c2 p2] H1 H2 H; simpl in *.
  - injection H as H. now split.
  - injection H as Hc _. subst c2. discriminate H2.
  - injection H as Hc _. subst c. discriminate H1.
  - injection H as Hc H. subst c2.
    apply andb_true_iff in H1. apply andb_true_iff in H2.
    destruct (IH p2 (proj2 H1) (proj2 H2) H) as [-> ->]. now split.
Qed.

(** X11. Records of different scope or IP get different store keys as long
    as the profile IDs contain no '/': for such profile IDs makeIPInfoKey is
    injective. *)
Theorem makeIPInfoKey_injective (p1 p2 ip1 ip2 : string) :
  noSlash p1 = true -> noSlash p2 = true ->
  makeIPInfoKey p1 ip1 = makeIPInfoKey p2 ip2 ->
  p1 = p2 /\ ip1 = ip2.
Proof.
  intros H1 H2 H. unfold makeIPInfoKey in H. simpl in H.
  injection H as H. now apply slash_free_split.
Qed.

Lemma makeIPInfoKey_injective_witness :
  "global" = "global" /\ "1.2.3.4" = "1.2.3.4".
Proof.
  exact (makeIPInfoKey_injective "global" "global" "1.2.3.4" "1.2.3.4"
           eq_refl eq_refl eq_refl).
Defined.

Lemma Join_cons (a : string) (rest : list string) (sep : string) :
  rest <> [] -> Join (a :: rest) sep = (a ++ sep ++ Join rest sep)%string.
Proof. destruct rest; [congruence|reflexivity]. Qed.

Lemma string_app_assoc (a b c : string) :
  ((a ++ b) ++ c)%string = (a ++ (b ++ c))%string.
Proof. induction a as [|x a IH]; simpl; [reflexivity|]. now rewrite IH. Qed.

Lemma Join_app (a b : list string) (sep : string) :
  a <> [] -> b <> [] ->
  Join (a ++ b) sep = (Join a sep ++ sep ++ Join b sep)%string.
Proof.
  intros Ha Hb. induction a as [|x a IH]; [congruence|].
  destruct a as [|y a].
  - simpl app. now rewrite Join_cons.
  - change ((x :: y :: a) ++ b) with (x :: ((y :: a) ++ b)).
    rewrite Join_cons by discriminate.
    rewrite IH by discriminate.
    rewrite (Join_cons x (y :: a)) by discriminate.
    now rewrite !string_app_assoc.
Qed.

(** X12. The String of a history reads in recency order, the entries
    separated by " or ": the String of two non-empty histories one after the
    other is their Strings with " or " between, and so the String after
    AddDomain ends with the String of the entry added. The String of an
    entry without CNAMEs is its domain; with CNAMEs it is the domain
    followed by the chain " (-> c1->c2)". *)
Theorem ResolvedDomains_String_recency (info : IPInfo) (r : ResolvedDomain)
    (h1 h2 : list ResolvedDomain) :
  (h1 <> [] -> h2 <> [] ->
     ResolvedDomains_String (h1 ++ h2)
     = (ResolvedDomains_String h1 ++ " or " ++ ResolvedDomains_String h2)%string)
  /\ (exists before,
        ResolvedDomains_String (ResolvedDomains (AddDomain info r))
        = (before ++ ResolvedDomain_String r)%string)
  /\ (CNAMEs r = [] -> ResolvedDomain_String r = Domain r)
  /\ (CNAMEs r <> [] ->
        ResolvedDomain_String r
        = (Domain r ++ " (-> " ++ Join (CNAMEs r) "->" ++ ")")%string).
Proof.
  repeat split.
  - intros H1 H2. unfold ResolvedDomains_String. rewrite map_app.
    apply Join_app; destruct h1, h2; simpl; congruence.
  - rewrite HistoryMore.AddDomain_deleteOld.
    destruct (deleteOld (Domain r) (ResolvedDomains info)) as [|x l] eqn:E.
    + exists "". reflexivity.
    + exists (ResolvedDomains_String (x :: l) ++ " or ")%string.
      unfold ResolvedDomains_String. rewrite map_app.
      rewrite Join_app by (simpl; congruence).
      now rewrite string_app_assoc.
  - intros H. unfold ResolvedDomain_String. rewrite H. simpl.
    induction (Domain r) as [|c s IH]; simpl; [reflexivity|]. now rewrite IH.
  - intros H. unfold ResolvedDomain_String.
    destruct (CNAMEs r); [congruence|reflexivity].
Qed.

End StoreMore.

(** ** More on the lookups *)

Module LookupMore.

Import GoStrings GoNet FilterLists LookupTrace LookupFacts.

Lemma trace_emit (e : event) (w : World) : trace (emit e w) = trace w ++ [e].
Proof. reflexivity. Qed.

(** The three ways through lookupBlockLists, in one equation. *)
Lemma lookup_cases (mk : string -> string -> string)
    (entity value : string) (w : World) :
  let key := mk entity value in
  lookupBlockLists mk entity value w
  = if negb (loaded w) then (Ret ([], None), emit (EvLog Warning key) w)
    else if negb (defaultFilter w entity value)
    then (Ret ([], None), emitAll [EvRLock; EvTest entity value; EvRUnlock] w)
    else match entityStore w key with
         | inl entry =>
             (Ret (Sources entry, None),
              emitAll [EvRLock; EvTest entity value; EvLog Debug key;
                       EvGet key; EvRUnlock] w)
         | inr ErrNotFound =>
             (Ret ([], None),
              emitAll [EvRLock; EvTest entity value; EvLog Debug key;
                       EvGet key; EvRUnlock] w)
         | inr err =>
             (Ret ([], Some err),
              emitAll [EvRLock; EvTest entity value; EvLog Debug key;
                       EvGet key; EvLog Error key; EvRUnlock] w)
         end.
Proof.
  intros key. destruct (loaded w) eqn:Hl; cbn [negb].
  - destruct (defaultFilter w entity value) eqn:Ht; cbn [negb].
    + now rewrite (lookup_possible_hit mk entity value w Hl Ht).
    + now rewrite (lookup_rejected mk entity value w Hl Ht).
  - now rewrite (lookup_not_loaded mk entity value w Hl).
Qed.

(** X13. lookupBlockLists always returns, and the read lock is taken and
    given back in order within the call. When the lists are loaded the
    events it adds start with the RLock and end with the RUnlock, with no
    other lock event between them, so the pre-filter test and the store
    query happen under the lock and the lock is released when the call
    returns; when they are not loaded it adds no lock event at all. Walking
    the added events in order, no RUnlock comes before its RLock and no lock
    is held at the end. *)
Theorem lookupBlockLists_returns_unlocked
    (makeListCacheKey : string -> string -> string)
    (entity value : string) (w : World) :
  let (r, w') := lookupBlockLists makeListCacheKey entity value w in
  returned r = true
  /\ exists es,
       trace w' = trace w ++ es
       /\ lockWalk 0 es = Some 0%nat
       /\ (loaded w = true ->
           exists mid, es = EvRLock :: mid ++ [EvRUnlock]
                       /\ existsb isLockEvent mid = false)
       /\ (loaded w = false -> existsb isLockEvent es = false).
Proof.
  rewrite lookup_cases. cbv zeta.
  destruct (loaded w); cbn [negb].
  - destruct (defaultFilter w entity value); cbn [negb].
    + destruct (entityStore w (makeListCacheKey entity value)) as [en|[|msg]];
        (split; [reflexivity|]); eexists;
        (split; [apply trace_emitAll|]);
        (split; [reflexivity|]);
        (split; [intros _|discriminate]).
      * exists [EvTest entity value;
                EvLog Debug (makeListCacheKey entity value);
                EvGet (makeListCacheKey entity value)].
        split; reflexivity.
      * exists [EvTest entity value;
                EvLog Debug (makeListCacheKey entity value);
                EvGet (makeListCacheKey entity value)].
        split; reflexivity.
      * exists [EvTest entity value;
                EvLog Debug (makeListCacheKey entity value);
                EvGet (makeListCacheKey entity value);
                EvLog Error (makeListCacheKey entity value)].
        split; reflexivity.
    + split; [reflexivity|]. eexists.
      split; [apply trace_emitAll|]. split; [reflexivity|].
      split; [intros _|discriminate].
      exists [EvTest entity value]. split; reflexivity.
  - split; [reflexivity|]. eexists. split; [apply trace_emit|].
    split; [reflexivity|]. split; [discriminate|reflexivity].
Qed.

(** X14. What a lookup asks of its collaborators, in every state: the
    pre-filter is tested once when the lists are loaded and not at all when
    they are not; the store is queried once, for the key of the value, when
    the lists are loaded and the test says yes, and not at all otherwise. *)
Theorem lookupBlockLists_queries
    (makeListCacheKey : string -> string -> string)
    (entity value : string) (w : World) :
  let w' := snd (lookupBlockLists makeListCacheKey entity value w) in
  filterTests (trace w')
  = filterTests (trace w)
    ++ (if loaded w then [(entity, value)] else [])
  /\ storeQueries (trace w')
     = storeQueries (trace w)
       ++ (if loaded w && defaultFilter w entity value
           then [makeListCacheKey entity value] else []).
Proof.
  rewrite lookup_cases. cbv zeta.
  destruct (loaded w); cbn [negb andb].
  - destruct (defaultFilter w entity value); cbn [negb].
    + destruct (entityStore w (makeListCacheKey entity value)) as [en|[|msg]];
        cbn [snd]; rewrite trace_emitAll, filterTests_app, storeQueries_app;
        split; reflexivity.
    + cbn [snd]. rewrite trace_emitAll, filterTests_app, storeQueries_app.
      split; reflexivity.
  - cbn [snd]. rewrite trace_emit, filterTests_app, storeQueries_app.
    split; reflexivity.
Qed.

(** X15. A lookup fails only when the store does: if lookupBlockLists
    returns an error, the lists were loaded, the pre-filter said yes, and
    the error is the one the store gave for the key, which was not NotFound;
    no sources come with it. *)
Theorem lookupBlockLists_error_is_store_error
    (makeListCacheKey : string -> string -> string)
    (entity value : string) (w : World)
    (sources : list string) (err : error) :
  fst (lookupBlockLists makeListCacheKey entity value w)
  = Ret (sources, Some err) ->
  loaded w = true
  /\ defaultFilter w entity value = true
  /\ entityStore w (makeListCacheKey entity value) = inr err
  /\ err <> ErrNotFound
  /\ sources = [].
Proof.
  rewrite lookup_cases. cbv zeta.
  destruct (loaded w); cbn [negb]; [|discriminate].
  destruct (defaultFilter w entity value); cbn [negb]; [|discriminate].
  destruct (entityStore w (makeListCacheKey entity value)) as [en|[|msg]];
    cbn [fst]; intros [= <- <-] || intros [=].
  repeat split. discriminate.
Qed.

Lemma lookupBlockLists_error_is_store_error_witness :
  entityStore storeDown (stubKey "asn" "64500")
  = inr (ErrorString "store unavailable")
  /\ ErrorString "store unavailable" <> ErrNotFound.
Proof.
  destruct (lookupBlockLists_error_is_store_error stubKey "asn" "64500"
              storeDown [] (ErrorString "store unavailable") eq_refl)
    as (_ & _ & H & Hne & _).
  split; [exact H|exact Hne].
Defined.

(** X16. Sources come from the store only: if lookupBlockLists returns a
    non-empty list of sources, the lists were loaded, the pre-filter said
    yes, and the list is the Sources of the entry stored under the key. *)
Theorem lookupBlockLists_sources_are_stored
    (makeListCacheKey : string -> string -> string)
    (entity value : string) (w : World)
    (sources : list string) (err : option error) :
  fst (lookupBlockLists makeListCacheKey entity value w) = Ret (sources, err) ->
  sources <> [] ->
  loaded w = true
  /\ defaultFilter w entity value = true
  /\ err = None
  /\ exists entry,
       entityStore w (makeListCacheKey entity value) = inl entry
       /\ Sources entry = sources.
Proof.
  rewrite lookup_cases. cbv zeta.
  destruct (loaded w); cbn [negb];
    [|intros [= <- <-] H; congruence].
  destruct (defaultFilter w entity value); cbn [negb];
    [|intros [= <- <-] H; congruence].
  destruct (entityStore w (makeListCacheKey entity value)) as [en|[|msg]];
    cbn [fst]; intros [= <- <-] H; try congruence.
  repeat split. now exists en.
Qed.

Lemma lookupBlockLists_sources_are_stored_witness :
  exists entry,
    entityStore oneListed (stubKey "domain" "example.com.") = inl entry
    /\ Sources entry = ["TEST"].
Proof.
  destruct (lookupBlockLists_sources_are_stored stubKey "domain" "example.com."
              oneListed ["TEST"] None eq_refl ltac:(discriminate))
    as (_ & _ & _ & H).
  exact H.
Defined.

Lemma lookupBlockLists_returned
    (mk : string -> string -> string) (entity value : string) (w : World) :
  returned (fst (lookupBlockLists mk entity value w)) = true.
Proof.
  pose proof (lookupBlockLists_cases_returned := lookup_cases mk entity value w).
  cbv zeta in lookupBlockLists_cases_returned.
  rewrite lookupBlockLists_cases_returned.
  destruct (loaded w); cbn [negb]; [|reflexivity].
  destruct (defaultFilter w entity value); cbn [negb]; [|reflexivity].
  destruct (entityStore w (mk entity value)) as [en|[|msg]]; reflexivity.
Qed.

Lemma normalizeDomain_empty (unicodeLower : string -> string) (s : string) :
  ToLower unicodeLower s = "" -> normalizeDomain unicodeLower s = None.
Proof. unfold normalizeDomain. intros ->. reflexivity. Qed.

Lemma mapBytes_empty (f : ascii -> ascii) (s : string) :
  mapBytes f s = "" <-> s = "".
Proof. destruct s; simpl; split; congruence. Qed.

(** X17. LookupDomain panics exactly when the lower-cased domain is empty;
    for a domain of ASCII bytes that is exactly the empty domain. In every
    other case it returns. *)
Theorem LookupDomain_panics_iff_empty
    (makeListCacheKey : string -> string -> string)
    (unicodeLower : string -> string) (domain : string) (w : World) :
  (returned (fst (LookupDomain makeListCacheKey unicodeLower domain w)) = false
   <-> ToLower unicodeLower domain = "")
  /\ (isASCII domain = true ->
      (returned (fst (LookupDomain makeListCacheKey unicodeLower domain w)) = false
       <-> domain = "")).
Proof.
  assert (returned (fst (LookupDomain makeListCacheKey unicodeLower domain w)) = false
          <-> ToLower unicodeLower domain = "") as Hiff.
  { split.
    - intros H. destruct (string_dec (ToLower unicodeLower domain) "") as [E|E];
        [assumption|].
      destruct (normalizeDomain_total unicodeLower domain E) as [k Hk].
      unfold LookupDomain in H. rewrite Hk in H.
      now rewrite lookupBlockLists_returned in H.
    - intros E. unfold LookupDomain.
      now rewrite (normalizeDomain_empty unicodeLower domain E). }
  split; [exact Hiff|].
  intros Ha. rewrite Hiff. unfold ToLower. rewrite Ha. apply mapBytes_empty.
Qed.

(** X18. The other lookups never panic: LookupCountry, LookupASNString,
    LookupIPv4String, LookupIPv6String, LookupIPv4, LookupIPv6, LookupIP and
    LookupIPString return for every input, in every state. *)
Theorem typed_lookups_return
    (makeListCacheKey : string -> string -> string)
    (ParseIP : string -> option IP) (IPString : IP -> string)
    (s : string) (ip : IP) (w : World) :
  returned (fst (LookupCountry makeListCacheKey s w)) = true
  /\ returned (fst (LookupASNString makeListCacheKey s w)) = true
  /\ returned (fst (LookupIPv4String makeListCacheKey s w)) = true
  /\ returned (fst (LookupIPv6String makeListCacheKey s w)) = true
  /\ returned (fst (LookupIPv4 makeListCacheKey IPString ip w)) = true
  /\ returned (fst (LookupIPv6 makeListCacheKey IPString ip w)) = true
  /\ returned (fst (LookupIP makeListCacheKey IPString ip w)) = true
  /\ returned (fst (LookupIPString makeListCacheKey ParseIP IPString s w)) = true.
Proof.
  assert (forall ip, returned (fst (LookupIPv4 makeListCacheKey IPString ip w)) = true) as H4.
  { intros i. unfold LookupIPv4. destruct (To4 i); [|reflexivity].
    apply lookupBlockLists_returned. }
  assert (forall ip, returned (fst (LookupIPv6 makeListCacheKey IPString ip w)) = true) as H6.
  { intros i. unfold LookupIPv6. destruct (To16 i); [|reflexivity].
    apply lookupBlockLists_returned. }
  assert (forall ip, returned (fst (LookupIP makeListCacheKey IPString ip w)) = true) as Hip.
  { intros i. unfold LookupIP. destruct (To4 i); [apply H4|apply H6]. }
  repeat split; try apply lookupBlockLists_returned; auto.
  unfold LookupIPString. destruct (ParseIP s); [apply Hip|reflexivity].
Qed.

(** X19. The value LookupDomain looks up always ends in a dot, and it is the
    lower-cased domain itself when that ends in a dot already (however many
    dots it ends in), with one dot appended otherwise. *)
Theorem normalizeDomain_ends_in_dot
    (unicodeLower : string -> string) (domain k : string) :
  normalizeDomain unicodeLower domain = Some k ->
  let lower := ToLower unicodeLower domain in
  byteAt k (Z.of_nat (String.length k) - 1) = Some "."%char
  /\ (byteAt lower (Z.of_nat (String.length lower) - 1) = Some "."%char ->
      k = lower)
  /\ (byteAt lower (Z.of_nat (String.length lower) - 1) <> Some "."%char ->
      k = (lower ++ ".")%string).
Proof.
  unfold normalizeDomain. cbv zeta.
  destruct (byteAt (ToLower unicodeLower domain) _) as [c|] eqn:E;
    [|discriminate].
  destruct (Ascii.eqb c ".") eqn:Ec; cbn [negb]; intros [= <-].
  - apply Ascii.eqb_eq in Ec. subst c. repeat split; congruence.
  - apply Ascii.eqb_neq in Ec. repeat split.
    + apply byteAt_last_dot.
    + congruence.
Qed.

Lemma normalizeDomain_ends_in_dot_witness :
  byteAt "example.com." (Z.of_nat (String.length "example.com.") - 1)
  = Some "."%char.
Proof.
  exact (proj1 (normalizeDomain_ends_in_dot stubUnicodeLower "Example.COM"
                  "example.com." eq_refl)).
Defined.

(** X20. LookupDomain does not see the case of ASCII letters: two domains
    of ASCII bytes that are equal once lower-cased are looked up alike, and
    so is a domain and its lower-cased form. *)
Theorem LookupDomain_ignores_case
    (makeListCacheKey : string -> string -> string)
    (unicodeLower : string -> string) (s t : string) (w : World) :
  isASCII s = true -> isASCII t = true ->
  mapBytes lowerByte s = mapBytes lowerByte t ->
  LookupDomain makeListCacheKey unicodeLower s w
  = LookupDomain makeListCacheKey unicodeLower t w
  /\ LookupDomain makeListCacheKey unicodeLower (mapBytes lowerByte s) w
     = LookupDomain makeListCacheKey unicodeLower s w.
Proof.
  intros Hs Ht H.
  assert (forall a b, isASCII a = true -> isASCII b = true ->
            mapBytes lowerByte a = mapBytes lowerByte b ->
            LookupDomain makeListCacheKey unicodeLower a w
            = LookupDomain makeListCacheKey unicodeLower b w) as Hgen.
  { intros a b Ha Hb Hab. unfold LookupDomain, normalizeDomain, ToLower.
    now rewrite Ha, Hb, Hab. }
  split; [now apply Hgen|].
  apply Hgen; [now apply isASCII_lower|assumption|].
  apply mapBytes_lower_idem.
Qed.

Lemma LookupDomain_ignores_case_witness :
  LookupDomain stubKey stubUnicodeLower "Example.COM" oneListed
  = LookupDomain stubKey stubUnicodeLower "example.com" oneListed.
Proof.
  exact (proj1 (LookupDomain_ignores_case stubKey stubUnicodeLower
                  "Example.COM" "example.com" oneListed
                  eq_refl eq_refl eq_refl)).
Defined.

Lemma length_mapBytes (f : ascii -> ascii) (s : string) :
  String.length (mapBytes f s) = String.length s.
Proof. induction s as [|c s IH]; simpl; [reflexivity|]. now rewrite IH. Qed.

Lemma get_mapBytes (f : ascii -> ascii) (s : string) (n : nat) :
  String.get n (mapBytes f s) = option_map f (String.get n s).
Proof.
  revert n. induction s as [|c s IH]; intros n; simpl; [reflexivity|].
  destruct n; [reflexivity|apply IH].
Qed.

Lemma byteAt_mapBytes (f : ascii -> ascii) (s : string) (i : Z) :
  byteAt (mapBytes f s) i = option_map f (byteAt s i).
Proof.
  unfold byteAt. rewrite length_mapBytes.
  destruct ((i <? 0)%Z || (Z.of_nat (String.length s) <=? i)%Z);
    [reflexivity|apply get_mapBytes].
Qed.

Lemma lowerByte_dot (c : ascii) : lowerByte c = "."%char -> c = "."%char.
Proof.
  destruct c as [b0 b1 b2 b3 b4 b5 b6 b7].
  destruct b0, b1, b2, b3, b4, b5, b6, b7; vm_compute; intros H;
    first [reflexivity | discriminate H].
Qed.

(** X21. For a domain of ASCII bytes that does not end in a dot, the
    spelling with a trailing dot is looked up like the one without. *)
Theorem LookupDomain_ignores_trailing_dot
    (makeListCacheKey : string -> string -> string)
    (unicodeLower : string -> string) (s : string) (c : ascii) (w : World) :
  isASCII s = true ->
  byteAt s (Z.of_nat (String.length s) - 1) = Some c ->
  c <> "."%char ->
  LookupDomain makeListCacheKey unicodeLower (s ++ ".")%string w
  = LookupDomain makeListCacheKey unicodeLower s w.
Proof.
  intros Ha Hc Hdot.
  assert (normalizeDomain unicodeLower (s ++ ".")%string
          = normalizeDomain unicodeLower s) as E.
  { assert (ToLower unicodeLower (s ++ ".")%string
            = (mapBytes lowerByte s ++ ".")%string) as E1.
    { unfold ToLower. rewrite isASCII_app, Ha.
      change (isASCII ".") with true. cbn [andb]. apply mapBytes_app. }
    assert (ToLower unicodeLower s = mapBytes lowerByte s) as E2
      by (unfold ToLower; now rewrite Ha).
    unfold normalizeDomain. rewrite E1, E2, byteAt_last_dot.
    rewrite byteAt_mapBytes, length_mapBytes, Hc. cbn [option_map].
    change (Ascii.eqb "." ".") with true. cbn [negb].
    destruct (Ascii.eqb (lowerByte c) ".") eqn:E; [|reflexivity].
    apply Ascii.eqb_eq, lowerByte_dot in E. congruence. }
  unfold LookupDomain. now rewrite E.
Qed.

Lemma LookupDomain_ignores_trailing_dot_witness :
  LookupDomain stubKey stubUnicodeLower "Example.com." oneListed
  = LookupDomain stubKey stubUnicodeLower "Example.com" oneListed.
Proof.
  exact (LookupDomain_ignores_trailing_dot stubKey stubUnicodeLower
           "Example.com" "m" oneListed eq_refl eq_refl ltac:(discriminate)).
Defined.

Lemma To4_plain (ip : IP) : List.length ip = 4%nat -> To4 ip = Some ip.
Proof. intros H. unfold To4, IPv4len. now rewrite H. Qed.

Lemma To4_mapped (ip : IP) :
  List.length ip = 4%nat -> To4 (v4InV6Prefix ++ ip) = Some ip.
Proof.
  destruct ip as [|a [|b [|c [|d [|e ip]]]]]; try discriminate.
  reflexivity.
Qed.

(** X22. LookupIP gives the same answer for the two forms of an IPv4
    address: the 4-byte form and the 16-byte form with the IPv4-in-IPv6
    prefix (the form net.ParseIP returns) are both looked up under the kind
    ipv4 with the text of the 4-byte form. *)
Theorem LookupIP_same_for_both_IPv4_forms
    (makeListCacheKey : string -> string -> string)
    (IPString : IP -> string) (ip : IP) (w : World) :
  List.length ip = 4%nat ->
  LookupIP makeListCacheKey IPString (v4InV6Prefix ++ ip) w
  = LookupIP makeListCacheKey IPString ip w
  /\ LookupIP makeListCacheKey IPString ip w
     = lookupBlockLists makeListCacheKey "ipv4" (IPString ip) w.
Proof.
  intros H. unfold LookupIP, LookupIPv4, LookupIPv4String.
  rewrite (To4_mapped ip H), (To4_plain ip H). split; reflexivity.
Qed.

Lemma LookupIP_same_for_both_IPv4_forms_witness :
  LookupIP stubKey stubIPString ip1234 oneListed
  = LookupIP stubKey stubIPString
      [Byte.x01; Byte.x02; Byte.x03; Byte.x04] oneListed.
Proof.
  exact (proj1 (LookupIP_same_for_both_IPv4_forms stubKey stubIPString
                  [Byte.x01; Byte.x02; Byte.x03; Byte.x04] oneListed eq_refl)).
Defined.

End LookupMore.

(** ** Serving files from bundles *)

Module UIFacts.

Import GoText UI.

Lemma statuses_app (a b : list action) :
  statuses (a ++ b) = statuses a ++ statuses b.
Proof.
  induction a as [|x a IH]; simpl; [reflexivity|].
  destruct x; simpl; now rewrite IH.
Qed.

Lemma fetched_app (a b : list action) :
  fetched (a ++ b) = fetched a ++ fetched b.
Proof.
  induction a as [|x a IH]; simpl; [reflexivity|].
  destruct x; simpl; now rewrite IH.
Qed.

(** Every way through ServeFileFromBundle at once. *)
Ltac serve_cases env r bundle path :=
  unfold ServeFileFromBundle;
  destruct (bundle path) as [?rc|[| |?msg]]; cbn [uiError_eqb];
  try destruct (bundle "index.html") as [?rc|?err];
  destruct (hasContentType r); cbn [negb];
  try match goal with
      | |- context [String.eqb (TypeByExtension env ?e) ""] =>
          destruct (String.eqb (TypeByExtension env e) "")
      end;
  cbn [negb];
  destruct (String.eqb (Method r) "HEAD") eqn:?Hhead; cbn [negb];
  try match goal with
      | |- context [copyError env ?b] => destruct (copyError env b) eqn:?Hcopy
      end.

Lemma ServeFileFromBundle_statuses
    (env : Env) (r : Request) (bundleName : string) (bundle : Bundle)
    (path : string) :
  statuses (ServeFileFromBundle env r bundleName bundle path)
  = [match bundle path with
     | inl _ => StatusOK
     | inr ResourcesErrNotFound =>
         match bundle "index.html" with
         | inl _ => StatusOK
         | inr _ => StatusNotFound
         end
     | inr _ => StatusInternalServerError
     end].
Proof. serve_cases env r bundle path; reflexivity. Qed.

(** X23. ServeFileFromBundle answers every request with exactly one
    status: 200 when the path opens, or when it is not found and index.html
    opens instead; 404 when the path is not found and index.html does not
    open either; 500 when the path fails to open for another reason. *)
Theorem ServeFileFromBundle_one_status
    (env : Env) (r : Request) (bundleName : string) (bundle : Bundle)
    (path : string) :
  statuses (ServeFileFromBundle env r bundleName bundle path)
  = [match bundle path with
     | inl _ => StatusOK
     | inr ResourcesErrNotFound =>
         match bundle "index.html" with
         | inl _ => StatusOK
         | inr _ => StatusNotFound
         end
     | inr _ => StatusInternalServerError
     end].
Proof. apply ServeFileFromBundle_statuses. Qed.

(** X24. A HEAD request never gets a body: nothing is copied to the
    response, whatever the bundle holds; and the reader that was opened is
    closed. *)
Theorem ServeFileFromBundle_HEAD_has_no_body
    (env : Env) (r : Request) (bundleName : string) (bundle : Bundle)
    (path : string) :
  Method r = "HEAD" ->
  let t := ServeFileFromBundle env r bundleName bundle path in
  bodies t = []
  /\ (statuses t = [StatusOK] -> existsb isClose t = true).
Proof.
  intros H. cbv zeta.
  serve_cases env r bundle path;
    try (rewrite H in Hhead; discriminate Hhead);
    split; try reflexivity; intros [=].
Qed.

Lemma ServeFileFromBundle_HEAD_has_no_body_witness :
  bodies (ServeFileFromBundle demoEnv
            {| Method := "HEAD"; moduleNameVar := Some "portmaster";
               resPathVar := Some "app.js"; hasContentType := false |}
            "portmaster" demoBundle "app.js") = [].
Proof.
  exact (proj1 (ServeFileFromBundle_HEAD_has_no_body demoEnv
                  {| Method := "HEAD"; moduleNameVar := Some "portmaster";
                     resPathVar := Some "app.js"; hasContentType := false |}
                  "portmaster" demoBundle "app.js" eq_refl)).
Defined.

(** X25. A path the bundle does not have is answered exactly as index.html
    would be, when the bundle has an index.html: same headers (the content
    type is that of index.html, not of the path asked for), same status,
    same body. *)
Theorem ServeFileFromBundle_falls_back_to_index
    (env : Env) (r : Request) (bundleName : string) (bundle : Bundle)
    (path content : string) :
  bundle path = inr ResourcesErrNotFound ->
  bundle "index.html" = inl content ->
  ServeFileFromBundle env r bundleName bundle path
  = ServeFileFromBundle env r bundleName bundle "index.html".
Proof.
  intros Hp Hi. unfold ServeFileFromBundle. rewrite Hp, Hi. reflexivity.
Qed.

Lemma ServeFileFromBundle_falls_back_to_index_witness :
  ServeFileFromBundle demoEnv (getRequest (Some "portmaster") (Some "settings"))
    "portmaster" demoBundle "settings"
  = [SetContentType "text/html; charset=utf-8"; WriteHeader 200;
     Copy "<html>"; Close].
Proof.
  rewrite (ServeFileFromBundle_falls_back_to_index demoEnv
             (getRequest (Some "portmaster") (Some "settings"))
             "portmaster" demoBundle "settings" "<html>" eq_refl eq_refl).
  reflexivity.
Defined.

(** X26. When a body is copied to the response, the reader is closed
    exactly when the copy succeeded: after a failed copy the handler
    returns with the reader still open. *)
Theorem ServeFileFromBundle_closes_after_copy
    (env : Env) (r : Request) (bundleName : string) (bundle : Bundle)
    (path body : string) :
  bodies (ServeFileFromBundle env r bundleName bundle path) = [body] ->
  (existsb isClose (ServeFileFromBundle env r bundleName bundle path) = true
   <-> copyError env body = None).
Proof.
  serve_cases env r bundle path; cbn; intros [= <-]; split;
    intros; try congruence; reflexivity.
Qed.

Lemma ServeFileFromBundle_closes_after_copy_witness :
  existsb isClose
    (ServeFileFromBundle demoEnv (getRequest (Some "portmaster") (Some "app.js"))
       "portmaster" demoBundle "app.js") = true.
Proof.
  exact (proj2 (ServeFileFromBundle_closes_after_copy demoEnv
                  (getRequest (Some "portmaster") (Some "app.js"))
                  "portmaster" demoBundle "app.js" "js()" eq_refl) eq_refl).
Defined.

Lemma ServeFileFromBundle_fetches_nothing
    (env : Env) (r : Request) (bundleName : string) (bundle : Bundle)
    (path : string) :
  fetched (ServeFileFromBundle env r bundleName bundle path) = [].
Proof. serve_cases env r bundle path; reflexivity. Qed.

Lemma uiError_eqb_eq (a b : uiError) : uiError_eqb a b = true <-> a = b.
Proof.
  destruct a, b; simpl; split; try congruence; try discriminate.
  - intros H. apply String.eqb_eq in H. now subst.
  - intros [= ->]. apply String.eqb_refl.
Qed.

(** The module a request names, with the handler's default. *)
Lemma ServeBundle_no_module (env : Env) (r : Request) (apps : Apps) :
  moduleNameVar r = None ->
  ServeBundle env "" r apps
  = ([HttpError (Text "missing module name") StatusBadRequest], apps).
Proof. intros H. unfold ServeBundle. now rewrite H. Qed.

(** X27. ServeBundle answers every request with exactly one status, one of
    200, 400, 404 and 500; it is 400 exactly when the route names no module
    and the handler has no default module. *)
Theorem ServeBundle_one_status
    (env : Env) (defaultModuleName : string) (r : Request) (apps : Apps) :
  exists code,
    statuses (fst (ServeBundle env defaultModuleName r apps)) = [code]
    /\ In code [StatusOK; StatusBadRequest; StatusNotFound;
                StatusInternalServerError]
    /\ (code = StatusBadRequest
        <-> moduleNameVar r = None /\ defaultModuleName = "").
Proof.
  assert (forall m rp b,
            exists code,
              statuses (ServeFileFromBundle env r m b rp) = [code]
              /\ In code [StatusOK; StatusBadRequest; StatusNotFound;
                          StatusInternalServerError]
              /\ code <> StatusBadRequest) as Hfile.
  { intros m rp b. rewrite ServeFileFromBundle_statuses.
    eexists. split; [reflexivity|].
    destruct (b rp) as [?|[| |?]]; try destruct (b "index.html");
      cbn; intuition discriminate. }
  unfold ServeBundle.
  destruct (moduleNameVar r) as [m|] eqn:Hm.
  - destruct (apps m) as [b|].
    + destruct (Hfile m (resPathOf r) b) as (code & H1 & H2 & H3).
      exists code. cbn [fst]. fold (resPathOf r).
      split; [exact H1|]. split; [exact H2|].
      split; [congruence|intros [[=] _]].
    + destruct (getFile env _) as [zip|err].
      * destruct (openZip env zip) as [b|err].
        -- destruct (Hfile m (resPathOf r) b) as (code & H1 & H2 & H3).
           exists code. cbn [fst]. fold (resPathOf r).
           rewrite statuses_app. cbn [statuses app].
           split; [exact H1|]. split; [exact H2|].
           split; [congruence|intros [[=] _]].
        -- exists StatusInternalServerError. cbn.
           split; [reflexivity|]. split; [tauto|].
           split; [discriminate|intros [[=] _]].
      * destruct (uiError_eqb err UpdaterErrNotFound).
        -- exists StatusNotFound. cbn.
           split; [reflexivity|]. split; [tauto|].
           split; [discriminate|intros [[=] _]].
        -- exists StatusInternalServerError. cbn.
           split; [reflexivity|]. split; [tauto|].
           split; [discriminate|intros [[=] _]].
  - destruct (String.eqb defaultModuleName "") eqn:Hd.
    + apply String.eqb_eq in Hd. exists StatusBadRequest. cbn.
      split; [reflexivity|]. split; [tauto|]. tauto.
    + apply String.eqb_neq in Hd.
      destruct (apps defaultModuleName) as [b|].
      * destruct (Hfile defaultModuleName (resPathOf r) b)
          as (code & H1 & H2 & H3).
        exists code. cbn [fst]. fold (resPathOf r).
        split; [exact H1|]. split; [exact H2|].
        split; [congruence|tauto].
      * destruct (getFile env _) as [zip|err].
        -- destruct (openZip env zip) as [b|err].
           ++ destruct (Hfile defaultModuleName (resPathOf r) b)
                as (code & H1 & H2 & H3).
              exists code. cbn [fst]. fold (resPathOf r).
              rewrite statuses_app. cbn [statuses app].
              split; [exact H1|]. split; [exact H2|].
              split; [congruence|tauto].
           ++ exists StatusInternalServerError. cbn.
              split; [reflexivity|]. split; [tauto|].
              split; [discriminate|tauto].
        -- destruct (uiError_eqb err UpdaterErrNotFound).
           ++ exists StatusNotFound. cbn.
              split; [reflexivity|]. split; [tauto|].
              split; [discriminate|tauto].
           ++ exists StatusInternalServerError. cbn.
              split; [reflexivity|]. split; [tauto|].
              split; [discriminate|tauto].
Qed.

(** X28. A module is fetched and opened once. The first request for a
    module that is not open yet fetches "ui/modules/<name>.zip", opens it and
    keeps the bundle; a second request for the module, for any path and
    method, fetches nothing, is served from the bundle kept, and leaves the
    open bundles as they are. *)
Theorem ServeBundle_opens_module_once
    (env : Env) (defaultModuleName : string) (r1 r2 : Request) (apps : Apps)
    (moduleName zipFile : string) (bundle : Bundle) :
  moduleNameVar r1 = Some moduleName ->
  moduleNameVar r2 = Some moduleName ->
  apps moduleName = None ->
  getFile env ("ui/modules/" ++ moduleName ++ ".zip")%string = inl zipFile ->
  openZip env zipFile = inl bundle ->
  let first := ServeBundle env defaultModuleName r1 apps in
  let second := ServeBundle env defaultModuleName r2 (snd first) in
  fetched (fst first) = [("ui/modules/" ++ moduleName ++ ".zip")%string]
  /\ snd first moduleName = Some bundle
  /\ fetched (fst second) = []
  /\ fst second
     = ServeFileFromBundle env r2 moduleName bundle (resPathOf r2)
  /\ snd second = snd first.
Proof.
  intros H1 H2 Ha Hg Ho. cbv zeta.
  assert (ServeBundle env defaultModuleName r1 apps
          = ([GetFile ("ui/modules/" ++ moduleName ++ ".zip")%string;
              OpenZip zipFile]
             ++ ServeFileFromBundle env r1 moduleName bundle (resPathOf r1),
             setApp moduleName bundle apps)) as E1.
  { unfold ServeBundle. now rewrite H1, Ha, Hg, Ho. }
  rewrite E1. cbn [fst snd].
  assert (setApp moduleName bundle apps moduleName = Some bundle) as Hs
    by (unfold setApp; now rewrite String.eqb_refl).
  assert (ServeBundle env defaultModuleName r2 (setApp moduleName bundle apps)
          = (ServeFileFromBundle env r2 moduleName bundle (resPathOf r2),
             setApp moduleName bundle apps)) as E2.
  { unfold ServeBundle. now rewrite H2, Hs. }
  rewrite E2. cbn [fst snd].
  rewrite fetched_app, !ServeFileFromBundle_fetches_nothing.
  repeat split. exact Hs.
Qed.

Lemma ServeBundle_opens_module_once_witness :
  let first := ServeBundle demoEnv ""
                 (getRequest (Some "portmaster") None) noApps in
  let second := ServeBundle demoEnv ""
                  (getRequest (Some "portmaster") (Some "app.js")) (snd first) in
  fetched (fst first) = ["ui/modules/portmaster.zip"]
  /\ fetched (fst second) = [].
Proof.
  cbv zeta.
  destruct (ServeBundle_opens_module_once demoEnv ""
              (getRequest (Some "portmaster") None)
              (getRequest (Some "portmaster") (Some "app.js")) noApps
              "portmaster" "/updates/portmaster.zip" demoBundle
              eq_refl eq_refl eq_refl eq_refl eq_refl)
    as (Ha & _ & Hb & _).
  split; [exact Ha|exact Hb].
Defined.

Lemma ServeBundle_interleaved_same
    (env : Env) (defaultModuleName : string) (r : Request) (apps : Apps) :
  ServeBundle env defaultModuleName r apps
  = ServeBundleInterleaved env defaultModuleName r apps apps.
Proof. reflexivity. Qed.

(** X29. What one request does to apps, with other requests allowed between
    its read of apps ([seen]) and its insert ([current]). The handler writes
    apps at most once and only at the module it fetched and opened: every
    module is left as [current] has it, or it was missing in [seen], its zip
    was fetched and opened, and it is now mapped to that new bundle. The
    insert does not look at [current]: a bundle another request opened for
    the module in between is replaced. A request that fetches nothing leaves
    apps as it is. Run on its own (seen = current), a request equals
    ServeBundle and replaces no open bundle. *)
Theorem ServeBundle_writes_apps_once
    (env : Env) (defaultModuleName : string) (r : Request)
    (seen current : Apps) :
  let t := fst (ServeBundleInterleaved env defaultModuleName r seen current) in
  let apps' := snd (ServeBundleInterleaved env defaultModuleName r seen current) in
  (forall k,
     apps' k = current k
     \/ (seen k = None
         /\ exists zipFile bundle,
              getFile env ("ui/modules/" ++ k ++ ".zip")%string = inl zipFile
              /\ openZip env zipFile = inl bundle
              /\ apps' k = Some bundle
              /\ fetched t = [("ui/modules/" ++ k ++ ".zip")%string]))
  /\ (fetched t = [] -> apps' = current)
  /\ (forall m zipFile bundle,
        moduleNameVar r = Some m -> seen m = None ->
        getFile env ("ui/modules/" ++ m ++ ".zip")%string = inl zipFile ->
        openZip env zipFile = inl bundle ->
        apps' m = Some bundle)
  /\ (seen = current ->
      ServeBundleInterleaved env defaultModuleName r seen current
      = ServeBundle env defaultModuleName r current
      /\ forall k bundle, current k = Some bundle -> apps' k = Some bundle).
Proof.
  cbv zeta. repeat split.
  - unfold ServeBundleInterleaved.
    set (name := match moduleNameVar r with
                 | Some m => Some m
                 | None => if String.eqb defaultModuleName "" then None
                           else Some defaultModuleName
                 end).
    destruct name as [m|]; [|cbn [fst snd]; auto].
    destruct (seen m) as [b|] eqn:Ha; [cbn [fst snd]; auto|].
    destruct (getFile env _) as [zip|err] eqn:Hg.
    + destruct (openZip env zip) as [b|err] eqn:Ho; [|cbn [fst snd]; auto].
      cbn [fst snd]. intros k. unfold setApp.
      destruct (String.eqb k m) eqn:E; [|now left].
      apply String.eqb_eq in E. subst k. right.
      split; [exact Ha|]. exists zip, b.
      rewrite fetched_app, ServeFileFromBundle_fetches_nothing.
      repeat split; assumption.
    + destruct (uiError_eqb err UpdaterErrNotFound); cbn [fst snd]; auto.
  - unfold ServeBundleInterleaved.
    set (name := match moduleNameVar r with
                 | Some m => Some m
                 | None => if String.eqb defaultModuleName "" then None
                           else Some defaultModuleName
                 end).
    destruct name as [m|]; [|cbn [fst snd]; auto].
    destruct (seen m) as [b|] eqn:Ha; [cbn [fst snd]; auto|].
    destruct (getFile env _) as [zip|err] eqn:Hg.
    + destruct (openZip env zip) as [b|err] eqn:Ho; [|cbn [fst snd]; auto].
      cbn. discriminate.
    + destruct (uiError_eqb err UpdaterErrNotFound); cbn [fst snd]; auto.
  - intros m zip b Hm Hs Hg Ho. unfold ServeBundleInterleaved.
    rewrite Hm, Hs, Hg, Ho. cbn [snd]. unfold setApp.
    now rewrite String.eqb_refl.
  - now subst seen.
  - intros k bundle Hk. subst seen. unfold ServeBundleInterleaved.
    set (name := match moduleNameVar r with
                 | Some m => Some m
                 | None => if String.eqb defaultModuleName "" then None
                           else Some defaultModuleName
                 end).
    destruct name as [m|]; [|cbn [fst snd]; auto].
    destruct (current m) as [b|] eqn:Ha; [cbn [fst snd]; auto|].
    destruct (getFile env _) as [zip|err] eqn:Hg.
    + destruct (openZip env zip) as [b|err] eqn:Ho; [|cbn [fst snd]; auto].
      cbn [snd]. unfold setApp.
      destruct (String.eqb k m) eqn:E; [|exact Hk].
      apply String.eqb_eq in E. subst k. congruence.
    + destruct (uiError_eqb err UpdaterErrNotFound); cbn [fst snd]; auto.
Qed.

(** Two requests for portmaster that both read apps before either inserts:
    the second one's insert replaces the bundle the first one put there. *)
Lemma ServeBundle_writes_apps_once_witness :
  let otherBundle : Bundle := fun _ => inr ResourcesErrNotFound in
  snd (ServeBundleInterleaved demoEnv ""
         (getRequest (Some "portmaster") None)
         noApps (setApp "portmaster" otherBundle noApps)) "portmaster"
  = Some demoBundle.
Proof.
  cbv zeta.
  destruct (ServeBundle_writes_apps_once demoEnv ""
              (getRequest (Some "portmaster") None) noApps
              (setApp "portmaster" (fun _ => inr ResourcesErrNotFound) noApps))
    as (_ & _ & H & _).
  exact (H "portmaster" "/updates/portmaster.zip" demoBundle
           eq_refl eq_refl eq_refl eq_refl).
Defined.

(** X30. A resPath that ends in a slash is served as index.html: the
    request is answered exactly like the same request without a resPath. *)
Theorem ServeBundle_directory_is_index
    (env : Env) (defaultModuleName : string) (apps : Apps)
    (method resPath : string) (moduleName : option string) (hasCT : bool) :
  HasSuffix resPath "/" = true ->
  ServeBundle env defaultModuleName
    {| Method := method; moduleNameVar := moduleName;
       resPathVar := Some resPath; hasContentType := hasCT |} apps
  = ServeBundle env defaultModuleName
      {| Method := method; moduleNameVar := moduleName;
         resPathVar := None; hasContentType := hasCT |} apps.
Proof.
  intros H. unfold ServeBundle. cbn [moduleNameVar resPathVar].
  rewrite H. reflexivity.
Qed.

Lemma ServeBundle_directory_is_index_witness :
  fst (ServeBundle demoEnv ""
         (getRequest (Some "portmaster") (Some "settings/")) noApps)
  = [GetFile "ui/modules/portmaster.zip"; OpenZip "/updates/portmaster.zip";
     SetContentType "text/html; charset=utf-8"; WriteHeader 200;
     Copy "<html>"; Close].
Proof.
  unfold getRequest.
  rewrite (ServeBundle_directory_is_index demoEnv "" noApps "GET" "settings/"
             (Some "portmaster") false eq_refl).
  reflexivity.
Defined.

End UIFacts.
